(** * UUID codec and bit layout (package uuid): a shallow embedding

    The Go sources of package uuid (the file that declares the [UUID]
    type, and [codec.go]) are embedded function by function.  Bytes are integers in [0, 256) with the wrap-around of the
    Go [byte] type written out; Go strings and byte slices are lists of
    bytes; the array type [UUID] is a list of 16 bytes; an index or slice
    expression out of range panics, which the [res] monad records. *)

From Stdlib Require Import ZArith Lia Ascii String.
From stdpp Require Import base option list strings.

Local Open Scope Z_scope.

(** ** Machine integers *)

Module Wrap.

(** Truncation of a result to Go's [byte] (uint8). *)
Definition u8 (x : Z) : Z := x mod 256.

(** Truncation of a result to Go's [uint64]. *)
Definition u64 (x : Z) : Z := x mod 2 ^ 64.

Definition is_byte (b : Z) : Prop := 0 <= b < 256.

Definition is_byteb (b : Z) : bool := (0 <=? b) && (b <? 256).

End Wrap.

(** The code point of a character literal, as in Go's ['-']. *)
Definition chr (a : ascii) : Z := Z.of_N (N_of_ascii a).

(** A Go string literal as its bytes. *)
Fixpoint lit (s : string) : list Z :=
  match s with
  | EmptyString => []
  | String a s' => chr a :: lit s'
  end.

(** ** Panics *)

Inductive res (A : Type) : Type :=
| Ok (a : A)
| Panic.
Arguments Ok {A} a.
Arguments Panic {A}.

#[global] Instance res_ret : MRet res := fun A a => Ok a.
#[global] Instance res_bind : MBind res :=
  fun A B f m => match m with Ok a => f a | Panic => Panic end.

(** [t[i]] on a slice. *)
Definition index (t : list Z) (i : nat) : res Z :=
  match t !! i with
  | Some c => Ok c
  | None => Panic
  end.

(** [t[lo:hi]] on a slice whose capacity is its length. *)
Definition slice (t : list Z) (lo hi : nat) : res (list Z) :=
  if ((lo <=? hi) && (hi <=? length t))%nat
  then Ok (take (hi - lo) (drop lo t))
  else Panic.

(** [dst[i] = v] on a slice. *)
Definition store (dst : list Z) (i : nat) (v : Z) : res (list Z) :=
  if (i <? length dst)%nat then Ok (<[i := v]> dst) else Panic.

(** Go's short-circuit [||] over operands that may panic. *)
Definition orelse (a b : res bool) : res bool :=
  x ← a; if (x : bool) then Ok true else b.

(** ** Errors

    An error keeps the format string and the operands it was built from. *)

Inductive operand : Type :=
| OpInt (n : Z)          (* an integer under [%d] *)
| OpQuoted (b : list Z)  (* a byte slice under [%q] *)
| OpStr (b : list Z).    (* the bytes a [Formatter] wrote under [%s] *)

Inductive error : Type :=
| errors_New (text : string)
| fmt_Errorf (format : string) (args : list operand).

#[global] Instance operand_eq_dec : EqDecision operand.
Proof. solve_decision. Defined.

#[global] Instance error_eq_dec : EqDecision error.
Proof. solve_decision. Defined.

(** ** The UUID type, its accessors and setters *)

Definition Size : nat := 16.

(** [type UUID [Size]byte]: a list that is expected to satisfy [valid]. *)
Abbreviation UUID := (list Z).

Definition valid (u : UUID) : Prop :=
  length u = Size /\ Forall Wrap.is_byte u.

Definition validb (u : UUID) : bool :=
  (length u =? Size)%nat && forallb Wrap.is_byteb u.

(** [u[i]] on the array: the index is a constant below [Size]. *)
Definition get (u : UUID) (i : nat) : Z := default 0 (u !! i).

Definition V1 : Z := 1.
Definition V3 : Z := 3.
Definition V4 : Z := 4.
Definition V5 : Z := 5.
Definition V6 : Z := 6.
Definition V7 : Z := 7.

Definition VariantNCS : Z := 0.
Definition VariantRFC4122 : Z := 1.
Definition VariantMicrosoft : Z := 2.
Definition VariantFuture : Z := 3.

Definition Nil : UUID := replicate Size 0.

Definition Version (u : UUID) : Z := Z.shiftr (get u 6) 4.

Definition Variant (u : UUID) : Z :=
  if Z.shiftr (get u 8) 7 =? 0 then VariantNCS
  else if Z.shiftr (get u 8) 6 =? 2 then VariantRFC4122
  else if Z.shiftr (get u 8) 5 =? 6 then VariantMicrosoft
  else if Z.shiftr (get u 8) 5 =? 7 then VariantFuture
  else VariantFuture.

Definition Bytes (u : UUID) : list Z := u.

Definition SetVersion (u : UUID) (v : Z) : UUID :=
  <[6%nat := Z.lor (Z.land (get u 6) 15) (Wrap.u8 (Z.shiftl v 4))]> u.

Definition SetVariant (u : UUID) (v : Z) : UUID :=
  if v =? VariantNCS then
    <[8%nat := Z.lor (Z.land (get u 8) (Z.shiftr 255 1)) (Z.shiftl 0 7)]> u
  else if v =? VariantRFC4122 then
    <[8%nat := Z.lor (Z.land (get u 8) (Z.shiftr 255 2)) (Z.shiftl 2 6)]> u
  else if v =? VariantMicrosoft then
    <[8%nat := Z.lor (Z.land (get u 8) (Z.shiftr 255 3)) (Z.shiftl 6 5)]> u
  else
    <[8%nat := Z.lor (Z.land (get u 8) (Z.shiftr 255 3)) (Z.shiftl 7 5)]> u.

(** *** encoding/hex and encoding/binary, as this package uses them *)

Module hex.

Definition hextable : list Z := lit "0123456789abcdef".

Definition digit (n : Z) : Z := default 0 (hextable !! Z.to_nat n).

(** [hex.Encode(dst[off:], src)]: two digits per source byte, written
    from [off] on into the buffer that the destination slice aliases. *)
Fixpoint Encode (dst : list Z) (off : nat) (src : list Z) : res (list Z) :=
  match src with
  | [] => Ok dst
  | v :: src' =>
      dst1 ← store dst off (digit (Z.shiftr v 4));
      dst2 ← store dst1 (off + 1) (digit (Z.land v 15));
      Encode dst2 (off + 2) src'
  end.

End hex.

Module BigEndian.

Definition Uint16 (b : list Z) : Z :=
  Z.lor (get b 1) (Z.shiftl (get b 0) 8).

Definition Uint32 (b : list Z) : Z :=
  Z.lor (Z.lor (Z.lor (get b 3) (Z.shiftl (get b 2) 8))
               (Z.shiftl (get b 1) 16))
        (Z.shiftl (get b 0) 24).

End BigEndian.

(** [u[lo:hi]] on the array, with constant bounds within [Size]. *)
Definition sub (u : UUID) (lo hi : nat) : list Z := take (hi - lo) (drop lo u).

Definition encodeHex (dst : list Z) (u : UUID) : res (list Z) :=
  dst ← hex.Encode dst 0 (sub u 0 4);
  dst ← store dst 8 (chr "-");
  dst ← hex.Encode dst 9 (sub u 4 6);
  dst ← store dst 13 (chr "-");
  dst ← hex.Encode dst 14 (sub u 6 8);
  dst ← store dst 18 (chr "-");
  dst ← hex.Encode dst 19 (sub u 8 10);
  dst ← store dst 23 (chr "-");
  hex.Encode dst 24 (sub u 10 Size).

(** [String]: a Go string is its bytes. *)
Definition String (u : UUID) : res (list Z) :=
  encodeHex (replicate 36 0) u.

(** [Timestamp] is a [uint64]. *)
Definition TimestampFromV1 (u : UUID) : res (Z * option error) :=
  if negb (Version u =? 1) then
    (* [%s] on a UUID goes through [Format] with verb ['s'], which writes
       the canonical text *)
    s ← String u;
    Ok (0, Some (fmt_Errorf "uuid: %s is version %d, not version 1"
                            [OpStr s; OpInt (Version u)]))
  else
    let low := BigEndian.Uint32 (sub u 0 4) in
    let mid := BigEndian.Uint16 (sub u 4 6) in
    let hi := Z.land (BigEndian.Uint16 (sub u 6 8)) 4095 in
    Ok (Wrap.u64 (Wrap.u64 (low + Wrap.u64 (Z.shiftl mid 32))
                  + Wrap.u64 (Z.shiftl hi 48)), None).

Definition TimestampFromV6 (u : UUID) : res (Z * option error) :=
  if negb (Version u =? 6) then
    s ← String u;
    Ok (0, Some (fmt_Errorf "uuid: %s is version %d, not version 6"
                            [OpStr s; OpInt (Version u)]))
  else
    let hi := BigEndian.Uint32 (sub u 0 4) in
    let mid := BigEndian.Uint16 (sub u 4 6) in
    let low := Z.land (BigEndian.Uint16 (sub u 6 8)) 4095 in
    Ok (Wrap.u64 (Wrap.u64 (low + Wrap.u64 (Z.shiftl mid 12))
                  + Wrap.u64 (Z.shiftl hi 28)), None).

(** ** codec.go *)

Definition MarshalText (u : UUID) : res (list Z * option error) :=
  buf ← encodeHex (replicate 36 0) u;
  Ok (buf, None).

Definition fromHexChar (c : Z) : Z * bool :=
  if (chr "0" <=? c) && (c <=? chr "9") then (Wrap.u8 (c - chr "0"), true)
  else if (chr "a" <=? c) && (c <=? chr "f")
       then (Wrap.u8 (Wrap.u8 (c - chr "a") + 10), true)
  else if (chr "A" <=? c) && (c <=? chr "F")
       then (Wrap.u8 (Wrap.u8 (c - chr "A") + 10), true)
  else (0, false).

Definition errInvalidFormat : error := errors_New "invalid UUID format".

(** The body shared by the loops of [decodeCanonical] and
    [decodeHashLike]: the pair of digits at [t[x]], [t[x+1]] is stored in
    [u[i]], or the function returns [errInvalidFormat]. *)
Fixpoint decodeLoop (ixs : list (nat * nat)) (u : UUID) (t : list Z)
  : res (UUID * option error) :=
  match ixs with
  | [] => Ok (u, None)
  | (i, x) :: ixs' =>
      c1 ← index t x;
      c2 ← index t (x + 1);
      let '(a, ok1) := fromHexChar c1 in
      let '(b, ok2) := fromHexChar c2 in
      if ok1 && ok2
      then decodeLoop ixs' (<[i := Z.lor (Wrap.u8 (Z.shiftl a 4)) b]> u) t
      else Ok (u, Some errInvalidFormat)
  end.

(** [for i, x := range [16]int{0, 2, 4, 6, 9, 11, ...}]. *)
Definition canonicalOffsets : list nat :=
  [0; 2; 4; 6; 9; 11; 14; 16; 19; 21; 24; 26; 28; 30; 32; 34]%nat.

Definition decodeCanonical (u : UUID) (t : list Z) : res (UUID * option error) :=
  bad ← orelse (c ← index t 8; Ok (negb (c =? chr "-")))
       (orelse (c ← index t 13; Ok (negb (c =? chr "-")))
       (orelse (c ← index t 18; Ok (negb (c =? chr "-")))
               (c ← index t 23; Ok (negb (c =? chr "-")))));
  if (bad : bool) then
    Ok (u, Some (fmt_Errorf "uuid: incorrect UUID format in string %q"
                            [OpQuoted t]))
  else
    decodeLoop (imap (fun i x => (i, x)) canonicalOffsets) u t.

(** [for i := 0; i < 32; i += 2], storing into [u[i/2]]. *)
Definition decodeHashLike (u : UUID) (t : list Z) : res (UUID * option error) :=
  decodeLoop (map (fun i => (i / 2, i)%nat) (map (fun k => 2 * k)%nat (seq 0 16))) u t.

Definition UnmarshalText (u : UUID) (text : list Z) : res (UUID * option error) :=
  let decode (text : list Z) :=
    if (length text =? 36)%nat then decodeCanonical u text
    else decodeHashLike u text in
  let n := length text in
  if (n =? 32)%nat then decode text
  else if (n =? 36)%nat then decode text
  else if ((n =? 34) || (n =? 38))%nat then
    bad ← orelse (c ← index text 0; Ok (negb (c =? chr "{")))
                 (c ← index text (n - 1); Ok (negb (c =? chr "}")));
    if (bad : bool) then
      Ok (u, Some (fmt_Errorf "uuid: incorrect UUID format in string %q"
                              [OpQuoted text]))
    else
      text' ← slice text 1 (n - 1);
      decode text'
  else if ((n =? 41) || (n =? 45))%nat then
    pre ← slice text 0 9;
    if negb (bool_decide (pre = lit "urn:uuid:")) then
      Ok (u, Some (fmt_Errorf "uuid: incorrect UUID format in string %q"
                              [OpQuoted pre]))
    else
      text' ← slice text 9 n;
      decode text'
  else
    Ok (u, Some (fmt_Errorf "uuid: incorrect UUID length %d in string %q"
                            [OpInt (Z.of_nat n); OpQuoted text])).

Definition MarshalBinary (u : UUID) : list Z * option error :=
  (Bytes u, None).

(** [copy(u[:], data)] copies [min(len(u), len(data))] bytes. *)
Definition copy (dst src : list Z) : list Z :=
  take (length dst) src ++ drop (length src) dst.

Definition UnmarshalBinary (u : UUID) (data : list Z) : UUID * option error :=
  if negb (length data =? Size)%nat then
    (u, Some (fmt_Errorf "uuid: UUID must be exactly 16 bytes long, got %d bytes"
                         [OpInt (Z.of_nat (length data))]))
  else (copy u data, None).

Definition FromBytes (input : list Z) : UUID * option error :=
  UnmarshalBinary Nil input.

Definition FromBytesOrNil (input : list Z) : UUID :=
  match FromBytes input with
  | (_, Some _) => Nil
  | (uuid, None) => uuid
  end.

Definition FromString (input : list Z) : res (UUID * option error) :=
  UnmarshalText Nil input.

Definition FromStringOrNil (input : list Z) : res UUID :=
  '(uuid, err) ← FromString input;
  match err with
  | Some _ => Ok Nil
  | None => Ok uuid
  end.

(** [Must] panics on an error. *)
Definition Must (r : res (UUID * option error)) : res UUID :=
  '(u, err) ← r;
  match err with
  | Some _ => Panic
  | None => Ok u
  end.

Definition NamespaceDNS : res UUID :=
  Must (FromString (lit "6ba7b810-9dad-11d1-80b4-00c04fd430c8")).


(** ** Definitions used in the statements *)

Definition all_bytes : list Z := map Z.of_nat (seq 0 256).

(** What [SetVersion] stores in byte 6. *)
Definition version_byte (b v : Z) : Z :=
  Z.lor (Z.land b 15) (Wrap.u8 (Z.shiftl v 4)).

(** What [SetVariant] stores in byte 8, arm by arm. *)
Definition variant_byte (b x : Z) : Z :=
  if x =? VariantNCS then Z.lor (Z.land b (Z.shiftr 255 1)) (Z.shiftl 0 7)
  else if x =? VariantRFC4122 then Z.lor (Z.land b (Z.shiftr 255 2)) (Z.shiftl 2 6)
  else if x =? VariantMicrosoft then Z.lor (Z.land b (Z.shiftr 255 3)) (Z.shiftl 6 5)
  else Z.lor (Z.land b (Z.shiftr 255 3)) (Z.shiftl 7 5).

(** The variant a byte 8 decodes to. *)
Definition variant_of (b : Z) : Z :=
  if Z.shiftr b 7 =? 0 then VariantNCS
  else if Z.shiftr b 6 =? 2 then VariantRFC4122
  else if Z.shiftr b 5 =? 6 then VariantMicrosoft
  else if Z.shiftr b 5 =? 7 then VariantFuture
  else VariantFuture.

(** The tag [Variant] reports after [SetVariant x]. *)
Definition canonical_variant (x : Z) : Z :=
  if (x =? VariantNCS) || (x =? VariantRFC4122) || (x =? VariantMicrosoft)
  then x else VariantFuture.


(** The value of a byte string read as a big-endian number. *)
Definition be (bs : list Z) : Z :=
  fold_left (fun acc b => acc * 256 + b) bs 0.

(** Two lowercase digits per byte. *)
Definition hexdigits (src : list Z) : list Z :=
  flat_map (fun v => [hex.digit (Z.shiftr v 4); hex.digit (Z.land v 15)]) src.

(** The 8-4-4-4-12 text of a UUID. *)
Definition canonical_text (u : UUID) : list Z :=
  hexdigits (sub u 0 4) ++ chr "-" :: hexdigits (sub u 4 6) ++
  chr "-" :: hexdigits (sub u 6 8) ++ chr "-" :: hexdigits (sub u 8 10) ++
  chr "-" :: hexdigits (sub u 10 16).

(** The byte a pair of hex digits at [t[x]], [t[x+1]] stands for, if both
    are hex digits. *)
Definition hexPair (t : list Z) (x : nat) : option Z :=
  match t !! x, t !! (x + 1)%nat with
  | Some c1, Some c2 =>
      if snd (fromHexChar c1) && snd (fromHexChar c2)
      then Some (Z.lor (Wrap.u8 (Z.shiftl (fst (fromHexChar c1)) 4))
                       (fst (fromHexChar c2)))
      else None
  | _, _ => None
  end.

(** The bytes of the leading pairs that decode, up to the first pair that
    does not. *)
Fixpoint validPrefix (xs : list nat) (t : list Z) : list Z :=
  match xs with
  | [] => []
  | x :: xs' =>
      match hexPair t x with
      | Some v => v :: validPrefix xs' t
      | None => []
      end
  end.

(** Offsets paired with the index of the byte they fill, from [k] on. *)
Fixpoint numbered (k : nat) (xs : list nat) : list (nat * nat) :=
  match xs with
  | [] => []
  | x :: xs' => (k, x) :: numbered (S k) xs'
  end.

Definition hashOffsets : list nat :=
  [0; 2; 4; 6; 8; 10; 12; 14; 16; 18; 20; 22; 24; 26; 28; 30]%nat.

(** The text left after braces or the URN prefix are stripped. *)
Definition content (text : list Z) : list Z :=
  let n := length text in
  if ((n =? 34) || (n =? 38))%nat then take (n - 2) (drop 1 text)
  else if ((n =? 41) || (n =? 45))%nat then drop 9 text
  else text.

(** The offsets of the digit pairs in a stripped text. *)
Definition pairOffsets (c : list Z) : list nat :=
  if (length c =? 36)%nat then canonicalOffsets else hashOffsets.

Definition hyphenAt (t : list Z) (i : nat) : bool :=
  match t !! i with
  | Some c => c =? chr "-"
  | None => false
  end.

Definition hyphensOk (t : list Z) : bool :=
  hyphenAt t 8 && hyphenAt t 13 && hyphenAt t 18 && hyphenAt t 23.

Definition formatError (frag : list Z) : error :=
  fmt_Errorf "uuid: incorrect UUID format in string %q" [OpQuoted frag].

Definition lengthError (text : list Z) : error :=
  fmt_Errorf "uuid: incorrect UUID length %d in string %q"
             [OpInt (Z.of_nat (length text)); OpQuoted text].

(** What decoding a stripped text of 32 or 36 characters leaves in the
    destination [u], and the error it reports. *)
Definition decodeResult (u : UUID) (c : list Z) : UUID * option error :=
  if (length c =? 36)%nat && negb (hyphensOk c)
  then (u, Some (formatError c))
  else
    let p := validPrefix (pairOffsets c) c in
    (p ++ drop (length p) u,
     if (length p =? 16)%nat then None else Some errInvalidFormat).

Definition bracesOk (text : list Z) : bool :=
  match text !! 0%nat, text !! (length text - 1)%nat with
  | Some a, Some b => (a =? chr "{") && (b =? chr "}")
  | _, _ => false
  end.

Definition urnOk (text : list Z) : bool :=
  bool_decide (take 9 text = lit "urn:uuid:").

(** What [UnmarshalText] leaves in the destination [u], and the error it
    reports, by the length of the text. *)
Definition unmarshalResult (u : UUID) (text : list Z) : UUID * option error :=
  let n := length text in
  if ((n =? 32) || (n =? 36))%nat then decodeResult u text
  else if ((n =? 34) || (n =? 38))%nat then
    if bracesOk text then decodeResult u (content text)
    else (u, Some (formatError text))
  else if ((n =? 41) || (n =? 45))%nat then
    if urnOk text then decodeResult u (content text)
    else (u, Some (formatError (take 9 text)))
  else (u, Some (lengthError text)).

(** An error whose message is built from the operand [op]. *)
Definition carries (e : error) (op : operand) : bool :=
  match e with
  | fmt_Errorf _ args => bool_decide (op ∈ args)
  | errors_New _ => false
  end.

(** The raw input is part of the message, quoted or as it is. *)
Definition includes_input (e : error) (input : list Z) : bool :=
  carries e (OpQuoted input) || carries e (OpStr input).

Definition includes_length (e : error) (n : nat) : bool :=
  carries e (OpInt (Z.of_nat n)).

Definition is_lower_hex (c : Z) : bool :=
  ((chr "0" <=? c) && (c <=? chr "9")) || ((chr "a" <=? c) && (c <=? chr "f")).

(** The character expected at offset [i] of a canonical text: a hyphen at
    8, 13, 18 and 23, a lowercase hex digit elsewhere. *)
Definition shape_at (i : nat) (c : Z) : bool :=
  if bool_decide (i ∈ [8; 13; 18; 23]%nat) then c =? chr "-"
  else is_lower_hex c.

Definition canonical_shape (s : list Z) : bool :=
  (length s =? 36)%nat && forallb (fun b => b) (imap shape_at s).

(** ** More of the package: formatting, appending, time stamps *)

Definition IsNil (u : UUID) : bool := bool_decide (u = Nil).

(** [Append]: the canonical text after the bytes of [dst]. *)
Definition Append (u : UUID) (dst : list Z) : res (list Z) :=
  buf ← encodeHex (replicate 36 0) u;
  Ok (dst ++ buf).

(** [for i, c := range b]: [n] iterations are left, the next one reads
    [b[i]] and may overwrite it. *)
Fixpoint toUpperHex_loop (n i : nat) (b : list Z) : list Z :=
  match n with
  | O => b
  | S n' =>
      match b !! i with
      | Some c =>
          toUpperHex_loop n' (S i)
            (if (chr "a" <=? c) && (c <=? chr "f")
             then <[i := Wrap.u8 (c - (chr "a" - chr "A"))]> b
             else b)
      | None => b
      end
  end.

Definition toUpperHex (b : list Z) : list Z :=
  toUpperHex_loop (length b) 0 b.

(** What [Format] does with the state [f]: it writes bytes, or hands the
    value over to [fmt.Fprintf]. *)
Inductive formatted : Type :=
| f_Write (b : list Z)
| Fprintf_GoSyntax (a : list Z)              (* ["%#v"] of the array *)
| Fprintf_BadVerb (c : Z) (s : list Z).      (* ["%%!%c(uuid.UUID=%s)"] *)

(** [Format], with [sharp] for [f.Flag('#')] and the verb [c]. *)
Definition Format (u : UUID) (sharp : bool) (c : Z) : res formatted :=
  if (c =? chr "v") && sharp then Ok (Fprintf_GoSyntax u)
  else if (c =? chr "x") || (c =? chr "X") then
    b ← hex.Encode (replicate 32 0) 0 u;
    Ok (f_Write (if c =? chr "X" then toUpperHex b else b))
  else if (c =? chr "v") || (c =? chr "s") || (c =? chr "S") then
    '(b, _) ← MarshalText u;
    Ok (f_Write (if c =? chr "S" then toUpperHex b else b))
  else if c =? chr "q" then
    (* the double quote is 34 *)
    b ← store (replicate 38 0) 0 34;
    (* [b[1:]] shares its bytes with [b] *)
    tl ← encodeHex (drop 1 b) u;
    b ← store (take 1 b ++ tl) 37 34;
    Ok (f_Write b)
  else
    s ← String u;
    Ok (Fprintf_BadVerb c s).

(** [time.Unix(sec, nsec)], as it is called. *)
Inductive time_Time : Type :=
| time_Unix (sec nsec : Z).

Definition _100nsPerSecond : Z := 10000000.

Definition to_int64 (x : Z) : Z := (x + 2 ^ 63) mod 2 ^ 64 - 2 ^ 63.

(** [Timestamp.Time]; the constant [epochStart] is declared with the
    generator and is a parameter here. *)
Definition Time (epochStart : Z) (t : Z) : time_Time * option error :=
  let secs := t / _100nsPerSecond in
  let nsecs := Wrap.u64 (100 * (t mod _100nsPerSecond)) in
  (time_Unix (to_int64 (to_int64 secs - Z.quot epochStart _100nsPerSecond))
             (to_int64 nsecs),
   None).

(** ** Definitions used in the statements about them *)

(** One character in upper case, as [toUpperHex] maps it. *)
Definition upperc (c : Z) : Z :=
  if (chr "a" <=? c) && (c <=? chr "f") then c - 32 else c.

Definition is_hexdig (c : Z) : bool :=
  ((chr "0" <=? c) && (c <=? chr "9"))
  || ((chr "a" <=? c) && (c <=? chr "f"))
  || ((chr "A" <=? c) && (c <=? chr "F")).

(** The value of a hex digit. *)
Definition hexval (c : Z) : Z :=
  if (chr "0" <=? c) && (c <=? chr "9") then c - chr "0"
  else if (chr "a" <=? c) && (c <=? chr "f") then c - chr "a" + 10
  else c - chr "A" + 10.

(** 32 hex digits. *)
Definition hashlike (t : list Z) : bool :=
  (length t =? 32)%nat && forallb is_hexdig t.

(** The character accepted at offset [i] of a canonical text. *)
Definition accept_at (i : nat) (c : Z) : bool :=
  if bool_decide (i ∈ [8; 13; 18; 23]%nat) then c =? chr "-"
  else is_hexdig c.

(** 8-4-4-4-12 hex digits with hyphens between the groups. *)
Definition canonical (t : list Z) : bool :=
  (length t =? 36)%nat && forallb (fun b => b) (imap accept_at t).

Definition plain (t : list Z) : bool := canonical t || hashlike t.

(** The texts [UnmarshalText] takes: plain, in braces, or after the URN
    prefix. *)
Definition uuid_text (t : list Z) : Prop :=
  plain t = true
  \/ (exists p, plain p = true /\ t = chr "{" :: p ++ [chr "}"])
  \/ (exists p, plain p = true /\ t = lit "urn:uuid:" ++ p).

(** [t[i]] is a hex digit. *)
Definition hexAt (t : list Z) (i : nat) : bool :=
  match t !! i with
  | Some c => is_hexdig c
  | None => false
  end.

Definition pairOk (t : list Z) (x : nat) : bool :=
  hexAt t x && hexAt t (x + 1).

(** The length of the text is one [UnmarshalText] takes, and the braces
    or the URN prefix it asks for at this length are there. *)
Definition framed (text : list Z) : bool :=
  let n := length text in
  ((n =? 32) || (n =? 36))%nat
  || (((n =? 34) || (n =? 38))%nat && bracesOk text)
  || (((n =? 41) || (n =? 45))%nat && urnOk text).
(** * Properties *)

(** ** Facts about single bytes, by enumeration *)

Section ByteFacts.

Lemma all_bytes_complete (b : Z) : Wrap.is_byte b -> In b all_bytes.
Proof.
  intros Hb. unfold all_bytes. apply in_map_iff.
  exists (Z.to_nat b). split.
  - apply Z2Nat.id. apply Hb.
  - apply in_seq. unfold Wrap.is_byte in Hb. lia.
Qed.

Lemma for_all_bytes (P : Z -> bool) :
  forallb P all_bytes = true -> forall b, Wrap.is_byte b -> P b = true.
Proof.
  intros Hall b Hb.
  rewrite forallb_forall in Hall. apply Hall, all_bytes_complete, Hb.
Qed.

Lemma for_all_bytes2 (P : Z -> Z -> bool) :
  forallb (fun a => forallb (P a) all_bytes) all_bytes = true ->
  forall a b, Wrap.is_byte a -> Wrap.is_byte b -> P a b = true.
Proof.
  intros Hall a b Ha Hb.
  apply (for_all_bytes (P a)); [|exact Hb].
  apply (for_all_bytes (fun a => forallb (P a) all_bytes)); assumption.
Qed.

Lemma is_byteb_spec (b : Z) : Wrap.is_byteb b = true <-> Wrap.is_byte b.
Proof. unfold Wrap.is_byteb, Wrap.is_byte. lia. Qed.

Lemma validb_spec (u : UUID) : validb u = true <-> valid u.
Proof.
  unfold validb, valid. rewrite andb_true_iff, Nat.eqb_eq.
  rewrite forallb_forall, List.Forall_forall.
  split; intros [Hl Hf]; (split; [exact Hl|]);
    intros x Hx; apply is_byteb_spec, Hf, Hx.
Qed.

End ByteFacts.

(** ** Array reads and writes *)

Section ArrayFacts.

Lemma get_insert_eq (u : UUID) (i : nat) (v : Z) :
  (i < length u)%nat -> get (<[i := v]> u) i = v.
Proof. intros Hi. unfold get. by rewrite list_lookup_insert_eq. Qed.

Lemma get_insert_ne (u : UUID) (i j : nat) (v : Z) :
  i ≠ j -> get (<[i := v]> u) j = get u j.
Proof. intros Hij. unfold get. by rewrite list_lookup_insert_ne. Qed.

Lemma get_is_byte (u : UUID) (i : nat) : valid u -> Wrap.is_byte (get u i).
Proof.
  intros [_ Hu]. unfold get.
  destruct (u !! i) as [b|] eqn:Hb; simpl.
  - rewrite List.Forall_forall in Hu. apply Hu.
    apply list_elem_of_In. by eapply list_elem_of_lookup_2.
  - unfold Wrap.is_byte. lia.
Qed.

Lemma valid_insert (u : UUID) (i : nat) (v : Z) :
  valid u -> Wrap.is_byte v -> valid (<[i := v]> u).
Proof.
  intros [Hl Hu] Hv. split.
  - by rewrite length_insert.
  - apply Forall_insert; assumption.
Qed.

End ArrayFacts.

(** ** Version and variant bits *)

Section VersionVariant.

Lemma version_byte_facts (b v : Z) :
  Wrap.is_byte b -> Wrap.is_byte v ->
  Wrap.is_byte (version_byte b v)
  /\ Z.shiftr (version_byte b v) 4 = v mod 16
  /\ Z.land (version_byte b v) 15 = Z.land b 15.
Proof.
  intros Hb Hv.
  pose proof (for_all_bytes2
    (fun b v => Wrap.is_byteb (version_byte b v)
                && (Z.shiftr (version_byte b v) 4 =? v mod 16)
                && (Z.land (version_byte b v) 15 =? Z.land b 15))) as H.
  specialize (H ltac:(vm_compute; reflexivity) b v Hb Hv).
  apply andb_prop in H as [H H3]. apply andb_prop in H as [H1 H2].
  apply is_byteb_spec in H1. apply Z.eqb_eq in H2, H3. auto.
Qed.

Lemma SetVersion_unfold (u : UUID) (v : Z) :
  SetVersion u v = <[6%nat := version_byte (get u 6) v]> u.
Proof. reflexivity. Qed.

Lemma SetVariant_unfold (u : UUID) (x : Z) :
  SetVariant u x = <[8%nat := variant_byte (get u 8) x]> u.
Proof.
  unfold SetVariant, variant_byte.
  destruct (x =? VariantNCS); [reflexivity|].
  destruct (x =? VariantRFC4122); [reflexivity|].
  destruct (x =? VariantMicrosoft); reflexivity.
Qed.

Lemma Variant_unfold (u : UUID) : Variant u = variant_of (get u 8).
Proof. reflexivity. Qed.

Lemma variant_byte_facts (b x : Z) :
  Wrap.is_byte b ->
  Wrap.is_byte (variant_byte b x)
  /\ variant_of (variant_byte b x) = canonical_variant x.
Proof.
  intros Hb.
  assert (Hc : forall y, Wrap.is_byteb (variant_byte b y)
                         && (variant_of (variant_byte b y) =? canonical_variant y)
                         = true -> 
               Wrap.is_byte (variant_byte b y)
               /\ variant_of (variant_byte b y) = canonical_variant y).
  { intros y H. apply andb_prop in H as [H1 H2].
    apply is_byteb_spec in H1. apply Z.eqb_eq in H2. auto. }
  unfold variant_byte, canonical_variant.
  destruct (Z.eqb_spec x VariantNCS) as [ -> | H0 ].
  { apply (Hc VariantNCS).
    apply (for_all_bytes
      (fun b => Wrap.is_byteb (variant_byte b VariantNCS)
                && (variant_of (variant_byte b VariantNCS)
                    =? canonical_variant VariantNCS)));
      [vm_compute; reflexivity | exact Hb]. }
  destruct (Z.eqb_spec x VariantRFC4122) as [ -> | H1 ].
  { apply (Hc VariantRFC4122).
    apply (for_all_bytes
      (fun b => Wrap.is_byteb (variant_byte b VariantRFC4122)
                && (variant_of (variant_byte b VariantRFC4122)
                    =? canonical_variant VariantRFC4122)));
      [vm_compute; reflexivity | exact Hb]. }
  destruct (Z.eqb_spec x VariantMicrosoft) as [ -> | H2 ].
  { apply (Hc VariantMicrosoft).
    apply (for_all_bytes
      (fun b => Wrap.is_byteb (variant_byte b VariantMicrosoft)
                && (variant_of (variant_byte b VariantMicrosoft)
                    =? canonical_variant VariantMicrosoft)));
      [vm_compute; reflexivity | exact Hb]. }
  simpl orb. cbv iota.
  apply (Hc VariantFuture).
  apply (for_all_bytes
    (fun b => Wrap.is_byteb (variant_byte b VariantFuture)
              && (variant_of (variant_byte b VariantFuture)
                  =? canonical_variant VariantFuture)));
    [vm_compute; reflexivity | exact Hb].
Qed.

End VersionVariant.

Section Setters.

Variable u : UUID.
Hypothesis u_valid : valid u.

Lemma valid_length : length u = 16%nat.
Proof. apply u_valid. Qed.

Lemma SetVersion_valid (v : Z) : Wrap.is_byte v -> valid (SetVersion u v).
Proof.
  intros Hv. rewrite SetVersion_unfold. apply valid_insert; [assumption|].
  apply version_byte_facts; [apply get_is_byte|]; assumption.
Qed.

Lemma SetVariant_valid (x : Z) : valid (SetVariant u x).
Proof.
  rewrite SetVariant_unfold. apply valid_insert; [assumption|].
  apply variant_byte_facts, get_is_byte; assumption.
Qed.

Lemma Version_SetVersion (v : Z) :
  Wrap.is_byte v -> Version (SetVersion u v) = v mod 16.
Proof.
  intros Hv. unfold Version. rewrite SetVersion_unfold.
  rewrite get_insert_eq by (rewrite valid_length; lia).
  apply version_byte_facts; [apply get_is_byte|]; assumption.
Qed.

Lemma Variant_SetVariant (x : Z) :
  Variant (SetVariant u x) = canonical_variant x.
Proof.
  rewrite Variant_unfold, SetVariant_unfold.
  rewrite get_insert_eq by (rewrite valid_length; lia).
  apply variant_byte_facts, get_is_byte; assumption.
Qed.

Lemma Version_SetVariant (x : Z) : Version (SetVariant u x) = Version u.
Proof.
  unfold Version. rewrite SetVariant_unfold.
  by rewrite get_insert_ne.
Qed.

Lemma Variant_SetVersion (v : Z) : Variant (SetVersion u v) = Variant u.
Proof.
  rewrite !Variant_unfold, SetVersion_unfold.
  by rewrite get_insert_ne.
Qed.

Lemma setters_commute (v x : Z) :
  SetVariant (SetVersion u v) x = SetVersion (SetVariant u x) v.
Proof.
  rewrite !SetVariant_unfold, !SetVersion_unfold.
  rewrite !get_insert_ne by lia.
  apply list_insert_insert_ne. lia.
Qed.

End Setters.

(** C10: for every UUID [u] and every byte [v], also above 15,
    [SetVersion] stores [(u[6] & 0x0f) | ((v << 4) mod 256)] in byte 6;
    afterwards [Version] returns [v mod 16], the low nibble of byte 6 is
    the old one and the other fifteen bytes are unchanged. *)
Theorem SetVersion_any_byte (u : UUID) (v : Z) :
  valid u -> Wrap.is_byte v ->
  get (SetVersion u v) 6 = Z.lor (Z.land (get u 6) 15) (Z.shiftl v 4 mod 256)
  /\ Version (SetVersion u v) = v mod 16
  /\ Z.land (get (SetVersion u v) 6) 15 = Z.land (get u 6) 15
  /\ (forall i : nat, i ≠ 6%nat -> SetVersion u v !! i = u !! i)
  /\ valid (SetVersion u v).
Proof.
  intros Hu Hv.
  assert (H6 : get (SetVersion u v) 6 = version_byte (get u 6) v).
  { rewrite SetVersion_unfold. apply get_insert_eq.
    rewrite (valid_length u Hu). lia. }
  repeat split.
  - exact H6.
  - by apply Version_SetVersion.
  - rewrite H6. apply version_byte_facts; [apply get_is_byte|]; assumption.
  - intros i Hi. rewrite SetVersion_unfold. by apply list_lookup_insert_ne.
  - by apply SetVersion_valid.
  - by apply SetVersion_valid.
Qed.

Lemma SetVersion_any_byte_witness :
  Version (SetVersion Nil 255) = 15
  /\ Version (SetVersion (replicate 16 171) 22) = 6
  /\ SetVersion (replicate 16 171) 22
     = [171; 171; 171; 171; 171; 171; 107; 171;
        171; 171; 171; 171; 171; 171; 171; 171].
Proof.
  split; [|split].
  - apply (SetVersion_any_byte Nil 255).
    + apply validb_spec. reflexivity.
    + unfold Wrap.is_byte. lia.
  - apply (SetVersion_any_byte (replicate 16 171) 22).
    + apply validb_spec. reflexivity.
    + unfold Wrap.is_byte. lia.
  - reflexivity.
Defined.

(** C6: for every UUID [u], every version [v] in 0..15 and every variant
    tag [x], [SetVersion v] and [SetVariant x] commute; afterwards
    [Version] returns [v], and [Variant] returns [x] when [x] is NCS,
    RFC4122 or Microsoft and Future for every other tag. *)
Theorem SetVersion_SetVariant_independent (u : UUID) (v x : Z) :
  valid u -> 0 <= v < 16 ->
  let u1 := SetVariant (SetVersion u v) x in
  let u2 := SetVersion (SetVariant u x) v in
  u1 = u2
  /\ Version u1 = v
  /\ (x = VariantNCS \/ x = VariantRFC4122 \/ x = VariantMicrosoft ->
      Variant u1 = x)
  /\ (x ≠ VariantNCS -> x ≠ VariantRFC4122 -> x ≠ VariantMicrosoft ->
      Variant u1 = VariantFuture).
Proof.
  intros Hu Hv u1 u2.
  assert (Hvb : Wrap.is_byte v) by (unfold Wrap.is_byte; lia).
  assert (Hvar : Variant u1 = canonical_variant x).
  { apply Variant_SetVariant, SetVersion_valid; assumption. }
  split; [apply setters_commute|].
  split.
  { unfold u1. rewrite Version_SetVariant, Version_SetVersion by assumption.
    apply Z.mod_small. exact Hv. }
  split.
  - intros Hx. rewrite Hvar. unfold canonical_variant.
    destruct Hx as [ -> | [ -> | -> ] ]; reflexivity.
  - intros H0 H1 H2. rewrite Hvar. unfold canonical_variant.
    destruct (Z.eqb_spec x VariantNCS); [contradiction|].
    destruct (Z.eqb_spec x VariantRFC4122); [contradiction|].
    destruct (Z.eqb_spec x VariantMicrosoft); [contradiction|].
    reflexivity.
Qed.

Lemma SetVersion_SetVariant_independent_witness :
  SetVariant (SetVersion (replicate 16 255) 4) VariantRFC4122
  = SetVersion (SetVariant (replicate 16 255) VariantRFC4122) 4
  /\ Version (SetVariant (SetVersion (replicate 16 255) 4) VariantRFC4122) = 4.
Proof.
  pose proof (SetVersion_SetVariant_independent
                (replicate 16 255) 4 VariantRFC4122) as H.
  simpl in H.
  destruct H as (H1 & H2 & _).
  - apply validb_spec. reflexivity.
  - lia.
  - split; [exact H1 | exact H2].
Defined.

(** ** The canonical text *)

Ltac explode_uuid u H :=
  do 16 (destruct u as [|? u]; [discriminate H|]);
  destruct u; [|discriminate H].

Section Encoding.

Lemma String_canonical (u : UUID) :
  length u = 16%nat -> String u = Ok (canonical_text u).
Proof.
  intros H. explode_uuid u H. reflexivity.
Qed.

Lemma canonical_text_length (u : UUID) :
  length u = 16%nat -> length (canonical_text u) = 36%nat.
Proof.
  intros H. explode_uuid u H. reflexivity.
Qed.

End Encoding.

(** ** Timestamps *)

Section Timestamps.

Lemma land_shiftl_low (a b n : Z) :
  0 <= n -> 0 <= a < 2 ^ n -> Z.land a (Z.shiftl b n) = 0.
Proof.
  intros Hn Ha. apply Z.bits_inj'. intros i Hi.
  rewrite Z.land_spec, Z.bits_0.
  destruct (Z.lt_ge_cases i n) as [Hlt|Hge].
  - rewrite (Z.shiftl_spec_low b n i Hlt). apply Bool.andb_false_r.
  - replace a with (a mod 2 ^ n) by (apply Z.mod_small; exact Ha).
    rewrite Z.mod_pow2_bits_high by lia. reflexivity.
Qed.

Lemma lor_shiftl_add (a b n : Z) :
  0 <= n -> 0 <= a < 2 ^ n -> Z.lor a (Z.shiftl b n) = a + b * 2 ^ n.
Proof.
  intros Hn Ha.
  rewrite <- Z.lxor_lor by (apply land_shiftl_low; assumption).
  rewrite <- Z.add_nocarry_lxor by (apply land_shiftl_low; assumption).
  rewrite Z.shiftl_mul_pow2 by exact Hn. reflexivity.
Qed.

Lemma Uint16_be (b0 b1 : Z) :
  Wrap.is_byte b0 -> Wrap.is_byte b1 ->
  BigEndian.Uint16 [b0; b1] = be [b0; b1]
  /\ 0 <= be [b0; b1] < 2 ^ 16.
Proof.
  unfold Wrap.is_byte, BigEndian.Uint16, be, get. simpl. intros H0 H1.
  rewrite lor_shiftl_add by lia. lia.
Qed.

Lemma Uint32_be (b0 b1 b2 b3 : Z) :
  Wrap.is_byte b0 -> Wrap.is_byte b1 -> Wrap.is_byte b2 -> Wrap.is_byte b3 ->
  BigEndian.Uint32 [b0; b1; b2; b3] = be [b0; b1; b2; b3]
  /\ 0 <= be [b0; b1; b2; b3] < 2 ^ 32.
Proof.
  unfold Wrap.is_byte, BigEndian.Uint32, be, get. simpl. intros H0 H1 H2 H3.
  rewrite (lor_shiftl_add b3 b2 8) by lia.
  rewrite (lor_shiftl_add _ b1 16) by lia.
  rewrite (lor_shiftl_add _ b0 24) by lia.
  lia.
Qed.

Lemma mask12 (x : Z) : 0 <= x -> 0 <= Z.land x 4095 < 2 ^ 12.
Proof.
  intros Hx. change 4095 with (Z.ones 12).
  rewrite Z.land_ones by lia. apply Z.mod_pos_bound. lia.
Qed.

(** The three fields of the time stamp, read from a valid UUID. *)
Lemma time_fields (u : UUID) :
  valid u ->
  BigEndian.Uint32 (sub u 0 4) = be (sub u 0 4)
  /\ BigEndian.Uint16 (sub u 4 6) = be (sub u 4 6)
  /\ BigEndian.Uint16 (sub u 6 8) = be (sub u 6 8)
  /\ 0 <= be (sub u 0 4) < 2 ^ 32
  /\ 0 <= be (sub u 4 6) < 2 ^ 16
  /\ 0 <= be (sub u 6 8) < 2 ^ 16.
Proof.
  intros [Hl Hf]. explode_uuid u Hl.
  rewrite !Forall_cons in Hf.
  destruct Hf as (H0 & H1 & H2 & H3 & H4 & H5 & H6 & H7 & _).
  cbn [sub take drop Nat.sub].
  pose proof (Uint32_be _ _ _ _ H0 H1 H2 H3) as [E1 R1].
  pose proof (Uint16_be _ _ H4 H5) as [E2 R2].
  pose proof (Uint16_be _ _ H6 H7) as [E3 R3].
  repeat split; (assumption || lia).
Qed.

Lemma version_error (u : UUID) (fmt : string) :
  valid u ->
  exists s, String u = Ok s
    /\ (s ← String u;
        Ok (0, Some (fmt_Errorf fmt [OpStr s; OpInt (Version u)])))
       = Ok (0, Some (fmt_Errorf fmt [OpStr s; OpInt (Version u)])).
Proof.
  intros [Hl _]. exists (canonical_text u).
  rewrite (String_canonical u Hl). split; reflexivity.
Qed.

End Timestamps.

(** C7: [TimestampFromV1] fails with the version error, which carries the
    string form of [u] and its actual version, exactly when
    [Version u] is not 1; for a version-1 value it returns
    [time_low + (time_mid << 32) + (time_hi_masked << 48)], a number below
    [2^60], with the fields read big-endian from bytes 0-3, 4-5 and 6-7
    (version nibble masked).  The DNS namespace identifier has
    131059232331511824 ticks. *)
Theorem TimestampFromV1_spec :
  (forall u : UUID, valid u ->
     let time_low := be (sub u 0 4) in
     let time_mid := be (sub u 4 6) in
     let time_hi_masked := Z.land (be (sub u 6 8)) 4095 in
     let ticks := time_low + Z.shiftl time_mid 32 + Z.shiftl time_hi_masked 48 in
     (Version u ≠ 1 ->
      exists s, String u = Ok s
        /\ TimestampFromV1 u
           = Ok (0, Some (fmt_Errorf "uuid: %s is version %d, not version 1"
                                     [OpStr s; OpInt (Version u)])))
     /\ (Version u = 1 ->
         TimestampFromV1 u = Ok (ticks, None) /\ 0 <= ticks < 2 ^ 60))
  /\ (exists dns : UUID,
        FromString (lit "6ba7b810-9dad-11d1-80b4-00c04fd430c8") = Ok (dns, None)
        /\ TimestampFromV1 dns = Ok (131059232331511824, None)).
Proof.
  split.
  - intros u Hu time_low time_mid time_hi_masked ticks. split.
    + intros Hv. unfold TimestampFromV1.
      destruct (Z.eqb_spec (Version u) 1) as [E|_]; [contradiction|].
      cbn [negb].
      destruct (version_error u "uuid: %s is version %d, not version 1" Hu)
        as (s & Hs & Hr).
      exists s. split; assumption.
    + intros Hv. unfold TimestampFromV1. rewrite Hv. cbn [Z.eqb Pos.eqb negb].
      destruct (time_fields u Hu) as (E1 & E2 & E3 & R1 & R2 & R3).
      rewrite E1, E2, E3.
      fold time_low time_mid time_hi_masked.
      assert (R4 : 0 <= time_hi_masked < 2 ^ 12) by (apply mask12; lia).
      unfold ticks. rewrite !Z.shiftl_mul_pow2 by lia.
      unfold Wrap.u64.
      rewrite (Z.mod_small (time_mid * 2 ^ 32)) by lia.
      rewrite (Z.mod_small (time_hi_masked * 2 ^ 48)) by lia.
      rewrite (Z.mod_small (time_low + _)) by lia.
      rewrite Z.mod_small by lia.
      split; [reflexivity | lia].
  - exists [107; 167; 184; 16; 157; 173; 17; 209;
            128; 180; 0; 192; 79; 212; 48; 200].
    split; vm_compute; reflexivity.
Qed.

Lemma TimestampFromV1_spec_witness :
  TimestampFromV1 [107; 167; 184; 16; 157; 173; 17; 209;
                   128; 180; 0; 192; 79; 212; 48; 200]
  = Ok (131059232331511824, None).
Proof.
  destruct TimestampFromV1_spec as [H _].
  apply (H [107; 167; 184; 16; 157; 173; 17; 209;
            128; 180; 0; 192; 79; 212; 48; 200]).
  - apply validb_spec. reflexivity.
  - reflexivity.
Defined.

(** C8: [TimestampFromV6] fails with the version error, which carries the
    string form of [u] and its actual version, exactly when
    [Version u] is not 6; for a version-6 value it returns
    [time_low + (time_mid << 12) + (time_hi << 28)], a number below
    [2^60], with [time_hi] read big-endian from bytes 0-3, [time_mid] from
    bytes 4-5 and [time_low] from bytes 6-7 (version nibble masked). *)
Theorem TimestampFromV6_spec (u : UUID) :
  valid u ->
  let time_hi := be (sub u 0 4) in
  let time_mid := be (sub u 4 6) in
  let time_low := Z.land (be (sub u 6 8)) 4095 in
  let ticks := time_low + Z.shiftl time_mid 12 + Z.shiftl time_hi 28 in
  (Version u ≠ 6 ->
   exists s, String u = Ok s
     /\ TimestampFromV6 u
        = Ok (0, Some (fmt_Errorf "uuid: %s is version %d, not version 6"
                                  [OpStr s; OpInt (Version u)])))
  /\ (Version u = 6 ->
      TimestampFromV6 u = Ok (ticks, None) /\ 0 <= ticks < 2 ^ 60).
Proof.
  intros Hu time_hi time_mid time_low ticks. split.
  - intros Hv. unfold TimestampFromV6.
    destruct (Z.eqb_spec (Version u) 6) as [E|_]; [contradiction|].
    cbn [negb].
    destruct (version_error u "uuid: %s is version %d, not version 6" Hu)
      as (s & Hs & Hr).
    exists s. split; assumption.
  - intros Hv. unfold TimestampFromV6. rewrite Hv. cbn [Z.eqb Pos.eqb negb].
    destruct (time_fields u Hu) as (E1 & E2 & E3 & R1 & R2 & R3).
    rewrite E1, E2, E3.
    fold time_hi time_mid time_low.
    assert (R4 : 0 <= time_low < 2 ^ 12) by (apply mask12; lia).
    unfold ticks. rewrite !Z.shiftl_mul_pow2 by lia.
    unfold Wrap.u64.
    rewrite (Z.mod_small (time_mid * 2 ^ 12)) by lia.
    rewrite (Z.mod_small (time_hi * 2 ^ 28)) by lia.
    rewrite (Z.mod_small (time_low + _)) by lia.
    rewrite Z.mod_small by lia.
    split; [reflexivity | lia].
Qed.

Lemma TimestampFromV6_spec_witness :
  TimestampFromV6 [30; 192; 234; 182; 75; 207; 97; 210;
                   140; 3; 0; 21; 93; 1; 2; 3]
  = Ok (Z.land (be [97; 210]) 4095 + Z.shiftl (be [75; 207]) 12
        + Z.shiftl (be [30; 192; 234; 182]) 28, None).
Proof.
  apply (TimestampFromV6_spec [30; 192; 234; 182; 75; 207; 97; 210;
                               140; 3; 0; 21; 93; 1; 2; 3]).
  - apply validb_spec. reflexivity.
  - reflexivity.
Defined.

(** ** The decoding loops *)

Section Decoding.

Lemma index_lt (t : list Z) (i : nat) :
  (i < length t)%nat -> exists c, t !! i = Some c /\ index t i = Ok c.
Proof.
  intros Hi. destruct (lookup_lt_is_Some_2 t i Hi) as [c Hc].
  exists c. unfold index. rewrite Hc. split; reflexivity.
Qed.

Lemma slice_ok (t : list Z) (lo hi : nat) :
  (lo <= hi)%nat -> (hi <= length t)%nat ->
  slice t lo hi = Ok (take (hi - lo) (drop lo t)).
Proof.
  intros H1 H2. unfold slice.
  destruct (Nat.leb_spec lo hi); [|lia].
  destruct (Nat.leb_spec hi (length t)); [|lia].
  reflexivity.
Qed.

(** The loop writes the bytes of the leading valid pairs over [u], from
    index [k] on, and stops with [errInvalidFormat] at the first pair
    that is not two hex digits. *)
Lemma decodeLoop_spec (xs : list nat) (t : list Z) :
  List.Forall (fun x => (x + 1 < length t)%nat) xs ->
  forall (k : nat) (u : UUID),
    (k + length xs <= length u)%nat ->
    decodeLoop (numbered k xs) u t
    = Ok (take k u ++ validPrefix xs t
            ++ drop (k + length (validPrefix xs t)) u,
          if (length (validPrefix xs t) =? length xs)%nat
          then None else Some errInvalidFormat).
Proof.
  induction 1 as [|x xs Hx Hxs IH]; intros k u Hk.
  - cbn [numbered decodeLoop validPrefix length app].
    rewrite Nat.add_0_r, take_drop. reflexivity.
  - cbn [numbered decodeLoop validPrefix].
    destruct (index_lt t x ltac:(lia)) as (c1 & L1 & I1).
    destruct (index_lt t (x + 1) Hx) as (c2 & L2 & I2).
    rewrite I1, I2. unfold hexPair. rewrite L1, L2.
    cbn [mbind res_bind].
    destruct (fromHexChar c1) as [a ok1], (fromHexChar c2) as [b ok2].
    cbn [fst snd].
    destruct (ok1 && ok2).
    + cbn [length] in Hk.
      rewrite IH by (rewrite length_insert; lia).
      assert (Hku : (k < length u)%nat) by lia.
      rewrite (take_S_r _ k (Z.lor (Wrap.u8 (Z.shiftl a 4)) b))
        by (apply list_lookup_insert_eq; exact Hku).
      rewrite take_insert_ge by lia.
      rewrite drop_insert_lt by lia.
      rewrite <- app_assoc. cbn [app length Nat.eqb].
      replace (S k + length (validPrefix xs t))%nat
        with (k + S (length (validPrefix xs t)))%nat by lia.
      reflexivity.
    + cbn [length app Nat.eqb].
      rewrite Nat.add_0_r, take_drop. reflexivity.
Qed.

Lemma validPrefix_length (xs : list nat) (t : list Z) :
  (length (validPrefix xs t) <= length xs)%nat.
Proof.
  induction xs as [|x xs IH]; cbn [validPrefix length]; [lia|].
  destruct (hexPair t x); cbn [length]; lia.
Qed.

(** What the two loops leave behind, under one statement. *)
Lemma decodeLoop_16 (xs : list nat) (t : list Z) (u : UUID) :
  length xs = 16%nat -> length u = 16%nat ->
  List.Forall (fun x => (x + 1 < length t)%nat) xs ->
  let p := validPrefix xs t in
  decodeLoop (numbered 0 xs) u t
  = Ok (p ++ drop (length p) u,
        if (length p =? 16)%nat then None else Some errInvalidFormat).
Proof.
  intros Hxs Hu Hall p.
  rewrite (decodeLoop_spec xs t Hall 0 u) by lia.
  rewrite Hxs. reflexivity.
Qed.

Lemma decodeHashLike_spec (u : UUID) (t : list Z) :
  length u = 16%nat -> (32 <= length t)%nat ->
  let p := validPrefix hashOffsets t in
  decodeHashLike u t
  = Ok (p ++ drop (length p) u,
        if (length p =? 16)%nat then None else Some errInvalidFormat).
Proof.
  intros Hu Ht p.
  change (decodeHashLike u t) with (decodeLoop (numbered 0 hashOffsets) u t).
  apply decodeLoop_16; [reflexivity | exact Hu |].
  unfold hashOffsets. repeat (constructor; [lia|]). constructor.
Qed.

End Decoding.

Section Canonical.

Variable u : UUID.
Hypothesis u_len : length u = 16%nat.

Lemma decodeCanonical_spec (t : list Z) :
  length t = 36%nat ->
  decodeCanonical u t
  = if hyphensOk t
    then
      let p := validPrefix canonicalOffsets t in
      Ok (p ++ drop (length p) u,
          if (length p =? 16)%nat then None else Some errInvalidFormat)
    else Ok (u, Some (formatError t)).
Proof.
  intros Ht. unfold decodeCanonical, hyphensOk, hyphenAt, orelse.
  destruct (index_lt t 8 ltac:(lia)) as (c8 & L8 & I8).
  destruct (index_lt t 13 ltac:(lia)) as (c13 & L13 & I13).
  destruct (index_lt t 18 ltac:(lia)) as (c18 & L18 & I18).
  destruct (index_lt t 23 ltac:(lia)) as (c23 & L23 & I23).
  rewrite I8, I13, I18, I23, L8, L13, L18, L23.
  cbn [mbind res_bind].
  destruct (c8 =? chr "-"); cbn [negb andb]; [|reflexivity].
  destruct (c13 =? chr "-"); cbn [negb andb]; [|reflexivity].
  destruct (c18 =? chr "-"); cbn [negb andb]; [|reflexivity].
  destruct (c23 =? chr "-"); cbn [negb andb]; [|reflexivity].
  change (imap (fun i x => (i, x)) canonicalOffsets)
    with (numbered 0 canonicalOffsets).
  apply decodeLoop_16; [reflexivity | exact u_len |].
  unfold canonicalOffsets. repeat (constructor; [lia|]). constructor.
Qed.

(** The dispatch after stripping, on a text of 32 or 36 characters. *)
Lemma decode_content (c : list Z) :
  length c = 32%nat \/ length c = 36%nat ->
  (if (length c =? 36)%nat then decodeCanonical u c else decodeHashLike u c)
  = Ok (decodeResult u c).
Proof.
  intros [Hc|Hc]; unfold decodeResult, pairOffsets; rewrite Hc;
    cbn [Nat.eqb andb].
  - apply decodeHashLike_spec; [exact u_len | lia].
  - rewrite (decodeCanonical_spec c Hc).
    destruct (hyphensOk c); reflexivity.
Qed.

End Canonical.

Section Unmarshal.

Variable u : UUID.
Hypothesis u_len : length u = 16%nat.

Lemma braced_spec (text : list Z) (n : nat) :
  length text = n -> n = 34%nat \/ n = 38%nat ->
  (bad ← orelse (c ← index text 0; Ok (negb (c =? chr "{")))
                (c ← index text (n - 1); Ok (negb (c =? chr "}")));
   if (bad : bool) then Ok (u, Some (formatError text))
   else text' ← slice text 1 (n - 1);
        if (length text' =? 36)%nat then decodeCanonical u text'
        else decodeHashLike u text')
  = Ok (if bracesOk text then decodeResult u (content text)
        else (u, Some (formatError text))).
Proof.
  intros Hn Hcase.
  destruct (index_lt text 0 ltac:(lia)) as (c0 & L0 & I0).
  destruct (index_lt text (n - 1) ltac:(lia)) as (c1 & L1 & I1).
  unfold orelse, bracesOk. rewrite Hn, I0, I1, L0, L1.
  cbn [mbind res_bind].
  assert (Hc : content text = take (n - 1 - 1) (drop 1 text)).
  { unfold content. rewrite Hn.
    destruct Hcase as [-> | ->]; reflexivity. }
  assert (Hl : length (content text) = 32%nat \/ length (content text) = 36%nat).
  { rewrite Hc, length_take, length_drop. lia. }
  destruct (c0 =? chr "{"); cbn [negb andb]; [|reflexivity].
  destruct (c1 =? chr "}"); cbn [negb andb]; [|reflexivity].
  rewrite slice_ok by lia. cbn [mbind res_bind]. rewrite <- Hc.
  apply decode_content; assumption.
Qed.

Lemma urn_spec (text : list Z) (n : nat) :
  length text = n -> n = 41%nat \/ n = 45%nat ->
  (pre ← slice text 0 9;
   if negb (bool_decide (pre = lit "urn:uuid:"))
   then Ok (u, Some (formatError pre))
   else text' ← slice text 9 n;
        if (length text' =? 36)%nat then decodeCanonical u text'
        else decodeHashLike u text')
  = Ok (if urnOk text then decodeResult u (content text)
        else (u, Some (formatError (take 9 text)))).
Proof.
  intros Hn Hcase. unfold urnOk.
  rewrite !slice_ok by lia. cbn [mbind res_bind].
  change (take (9 - 0) (drop 0 text)) with (take 9 text).
  assert (Hc : content text = take (n - 9) (drop 9 text)).
  { unfold content. rewrite Hn.
    destruct Hcase as [-> | ->]; cbn [Nat.eqb orb];
      rewrite take_ge by (rewrite length_drop; lia); reflexivity. }
  assert (Hl : length (content text) = 32%nat \/ length (content text) = 36%nat).
  { rewrite Hc, length_take, length_drop. lia. }
  destruct (bool_decide (take 9 text = lit "urn:uuid:")); cbn [negb];
    [|reflexivity].
  rewrite <- Hc. apply decode_content; assumption.
Qed.

(** [UnmarshalText] never panics, and its outcome is [unmarshalResult]. *)
Lemma UnmarshalText_spec (text : list Z) :
  UnmarshalText u text = Ok (unmarshalResult u text).
Proof.
  unfold UnmarshalText, unmarshalResult. cbv zeta.
  destruct (Nat.eqb_spec (length text) 32) as [H32|N32].
  { cbn [orb]. apply decode_content; [assumption | lia]. }
  destruct (Nat.eqb_spec (length text) 36) as [H36|N36].
  { cbn [orb].
    pose proof (decode_content u u_len text (or_intror H36)) as Hd.
    rewrite H36 in Hd. exact Hd. }
  cbn [orb].
  destruct (Nat.eqb_spec (length text) 34) as [H34|N34].
  { cbn [orb]. apply (braced_spec text (length text)); [reflexivity | lia]. }
  destruct (Nat.eqb_spec (length text) 38) as [H38|N38].
  { cbn [orb]. apply (braced_spec text (length text)); [reflexivity | lia]. }
  cbn [orb].
  destruct (Nat.eqb_spec (length text) 41) as [H41|N41].
  { cbn [orb]. apply (urn_spec text (length text)); [reflexivity | lia]. }
  destruct (Nat.eqb_spec (length text) 45) as [H45|N45].
  { cbn [orb]. apply (urn_spec text (length text)); [reflexivity | lia]. }
  cbn [orb]. reflexivity.
Qed.

End Unmarshal.

Section Dispatch.

Variable u : UUID.

Lemma dispatch_braced (text : list Z) (n : nat) :
  length text = n -> n = 34%nat \/ n = 38%nat ->
  UnmarshalText u text
  = if bracesOk text
    then (if (n =? 34)%nat
          then decodeHashLike u (take 32 (drop 1 text))
          else decodeCanonical u (take 36 (drop 1 text)))
    else Ok (u, Some (formatError text)).
Proof.
  intros Hn Hcase.
  destruct (index_lt text 0 ltac:(lia)) as (c0 & L0 & I0).
  destruct (index_lt text (n - 1) ltac:(lia)) as (c1 & L1 & I1).
  assert (Hs : slice text 1 (n - 1) = Ok (take (n - 1 - 1) (drop 1 text)))
    by (apply slice_ok; lia).
  assert (Hl : length (take (n - 1 - 1) (drop 1 text)) = (n - 2)%nat)
    by (rewrite length_take, length_drop; lia).
  unfold UnmarshalText, bracesOk, orelse. cbv zeta.
  rewrite Hn, I0, I1, L0, L1, Hs. cbn [mbind res_bind]. rewrite Hl.
  destruct Hcase as [-> | ->]; cbn [Nat.eqb orb Nat.sub];
    destruct (c0 =? chr "{"); cbn [negb andb]; try reflexivity;
    destruct (c1 =? chr "}"); reflexivity.
Qed.

Lemma dispatch_urn (text : list Z) (n : nat) :
  length text = n -> n = 41%nat \/ n = 45%nat ->
  UnmarshalText u text
  = if urnOk text
    then (if (n =? 41)%nat
          then decodeHashLike u (drop 9 text)
          else decodeCanonical u (drop 9 text))
    else Ok (u, Some (formatError (take 9 text))).
Proof.
  intros Hn Hcase.
  assert (Hp : slice text 0 9 = Ok (take 9 text))
    by (rewrite slice_ok by lia; reflexivity).
  assert (Hs : slice text 9 n = Ok (drop 9 text)).
  { rewrite slice_ok by lia.
    rewrite take_ge by (rewrite length_drop; lia). reflexivity. }
  assert (Hl : length (drop 9 text) = (n - 9)%nat)
    by (rewrite length_drop; lia).
  unfold UnmarshalText, urnOk. cbv zeta.
  rewrite Hn, Hp, Hs. cbn [mbind res_bind]. rewrite Hl.
  destruct Hcase as [-> | ->]; cbn [Nat.eqb orb Nat.sub];
    destruct (bool_decide (take 9 text = lit "urn:uuid:")); reflexivity.
Qed.

End Dispatch.

(** C4: [UnmarshalText] looks at the length of the text only, in this
    order: 32 is decoded as hash-like; 36 as canonical; 34 and 38 need a
    leading brace and a trailing brace (a format error on the whole text
    otherwise) and the text between them is decoded as hash-like (32) or
    canonical (36); 41 and 45 need the nine characters [urn:uuid:] in
    front (a format error on these nine characters otherwise) and the
    rest is decoded as hash-like or canonical; every other length gives
    the length error, which carries the length and the text. *)
Theorem UnmarshalText_dispatch (u : UUID) (text : list Z) :
  let n := length text in
  (n = 32%nat -> UnmarshalText u text = decodeHashLike u text)
  /\ (n = 36%nat -> UnmarshalText u text = decodeCanonical u text)
  /\ (n = 34%nat \/ n = 38%nat -> bracesOk text = false ->
      UnmarshalText u text
      = Ok (u, Some (fmt_Errorf "uuid: incorrect UUID format in string %q"
                                [OpQuoted text])))
  /\ (n = 34%nat -> bracesOk text = true ->
      UnmarshalText u text = decodeHashLike u (take 32 (drop 1 text)))
  /\ (n = 38%nat -> bracesOk text = true ->
      UnmarshalText u text = decodeCanonical u (take 36 (drop 1 text)))
  /\ (n = 41%nat \/ n = 45%nat -> take 9 text ≠ lit "urn:uuid:" ->
      UnmarshalText u text
      = Ok (u, Some (fmt_Errorf "uuid: incorrect UUID format in string %q"
                                [OpQuoted (take 9 text)])))
  /\ (n = 41%nat -> take 9 text = lit "urn:uuid:" ->
      UnmarshalText u text = decodeHashLike u (drop 9 text))
  /\ (n = 45%nat -> take 9 text = lit "urn:uuid:" ->
      UnmarshalText u text = decodeCanonical u (drop 9 text))
  /\ (n ≠ 32%nat -> n ≠ 36%nat -> n ≠ 34%nat -> n ≠ 38%nat ->
      n ≠ 41%nat -> n ≠ 45%nat ->
      UnmarshalText u text
      = Ok (u, Some (fmt_Errorf "uuid: incorrect UUID length %d in string %q"
                                [OpInt (Z.of_nat n); OpQuoted text]))).
Proof.
  intros n. subst n.
  split; [|split]; [| |split]; [| | |split]; [| | | |split];
    [| | | | |split]; [| | | | | |split]; [| | | | | | |split].
  - intros H. unfold UnmarshalText. cbv zeta. rewrite H. reflexivity.
  - intros H. unfold UnmarshalText. cbv zeta. rewrite H. reflexivity.
  - intros H Hb. rewrite (dispatch_braced u text _ eq_refl H), Hb. reflexivity.
  - intros H Hb.
    rewrite (dispatch_braced u text _ eq_refl (or_introl H)), Hb, H.
    reflexivity.
  - intros H Hb.
    rewrite (dispatch_braced u text _ eq_refl (or_intror H)), Hb, H.
    reflexivity.
  - intros H Hp. rewrite (dispatch_urn u text _ eq_refl H). unfold urnOk.
    rewrite bool_decide_eq_false_2 by exact Hp. reflexivity.
  - intros H Hp. rewrite (dispatch_urn u text _ eq_refl (or_introl H)).
    unfold urnOk. rewrite bool_decide_eq_true_2 by exact Hp.
    rewrite H. reflexivity.
  - intros H Hp. rewrite (dispatch_urn u text _ eq_refl (or_intror H)).
    unfold urnOk. rewrite bool_decide_eq_true_2 by exact Hp.
    rewrite H. reflexivity.
  - intros N32 N36 N34 N38 N41 N45. unfold UnmarshalText. cbv zeta.
    destruct (Nat.eqb_spec (length text) 32); [contradiction|].
    destruct (Nat.eqb_spec (length text) 36); [contradiction|].
    destruct (Nat.eqb_spec (length text) 34); [contradiction|].
    destruct (Nat.eqb_spec (length text) 38); [contradiction|].
    destruct (Nat.eqb_spec (length text) 41); [contradiction|].
    destruct (Nat.eqb_spec (length text) 45); [contradiction|].
    reflexivity.
Qed.

Lemma UnmarshalText_dispatch_witness :
  UnmarshalText Nil (lit "{6ba7b8109dad11d180b400c04fd430c8}")
  = decodeHashLike Nil (lit "6ba7b8109dad11d180b400c04fd430c8")
  /\ UnmarshalText Nil (lit "[6ba7b810-9dad-11d1-80b4-00c04fd430c8}")
     = Ok (Nil, Some (formatError (lit "[6ba7b810-9dad-11d1-80b4-00c04fd430c8}")))
  /\ UnmarshalText Nil (lit "6ba7b810-9dad-11d1-80b4-00c04fd430c")
     = Ok (Nil, Some (lengthError (lit "6ba7b810-9dad-11d1-80b4-00c04fd430c"))).
Proof.
  split; [|split].
  - apply (UnmarshalText_dispatch Nil (lit "{6ba7b8109dad11d180b400c04fd430c8}"));
      reflexivity.
  - apply (UnmarshalText_dispatch Nil (lit "[6ba7b810-9dad-11d1-80b4-00c04fd430c8}"));
      [right|]; reflexivity.
  - apply (UnmarshalText_dispatch Nil (lit "6ba7b810-9dad-11d1-80b4-00c04fd430c"));
      cbn; lia.
Defined.

Section Failure.

Variable u : UUID.

Lemma pairOffsets_length (c : list Z) : length (pairOffsets c) = 16%nat.
Proof. unfold pairOffsets. destruct (length c =? 36)%nat; reflexivity. Qed.

Lemma decodeResult_failure (c : list Z) (e : error) :
  snd (decodeResult u c) = Some e ->
  let p := validPrefix (pairOffsets c) c in
  (e = formatError c \/ e = errInvalidFormat)
  /\ (e ≠ errInvalidFormat -> fst (decodeResult u c) = u)
  /\ (e = errInvalidFormat ->
      (length p < 16)%nat /\ fst (decodeResult u c) = p ++ drop (length p) u).
Proof.
  unfold decodeResult.
  destruct ((length c =? 36)%nat && negb (hyphensOk c)); cbn [fst snd].
  - intros [= <-]. split; [left; reflexivity|].
    split; [reflexivity | discriminate].
  - pose proof (validPrefix_length (pairOffsets c) c) as Hle.
    rewrite pairOffsets_length in Hle.
    destruct (Nat.eqb_spec (length (validPrefix (pairOffsets c) c)) 16)
      as [E|N]; [discriminate|].
    intros [= <-]. split; [right; reflexivity|].
    split; [contradiction|].
    intros _. split; [lia | reflexivity].
Qed.

End Failure.

(** On every failure: which error it is, and what is left in the
    destination, by the error. *)
Lemma failure_by_error (u : UUID) (text : list Z) :
  length u = 16%nat ->
  exists (u' : UUID) (r : option error),
    UnmarshalText u text = Ok (u', r)
    /\ forall e : error, r = Some e ->
         (e = lengthError text \/ (exists frag, e = formatError frag)
          \/ e = errInvalidFormat)
         /\ (e ≠ errInvalidFormat -> u' = u)
         /\ (e = errInvalidFormat ->
             let c := content text in
             let p := validPrefix (pairOffsets c) c in
             (length p < 16)%nat /\ u' = p ++ drop (length p) u).
Proof.
  intros Hu.
  exists (fst (unmarshalResult u text)), (snd (unmarshalResult u text)).
  split.
  { rewrite (UnmarshalText_spec u Hu text).
    destruct (unmarshalResult u text); reflexivity. }
  assert (Hd : forall e, snd (decodeResult u (content text)) = Some e ->
    (e = lengthError text \/ (exists frag, e = formatError frag)
     \/ e = errInvalidFormat)
    /\ (e ≠ errInvalidFormat -> fst (decodeResult u (content text)) = u)
    /\ (e = errInvalidFormat ->
        let c := content text in
        let p := validPrefix (pairOffsets c) c in
        (length p < 16)%nat
        /\ fst (decodeResult u (content text)) = p ++ drop (length p) u)).
  { intros e He.
    destruct (decodeResult_failure u (content text) e He) as (H1 & H2 & H3).
    split; [|split; assumption].
    destruct H1 as [-> | ->]; [right; left; eexists; reflexivity | auto]. }
  assert (Hf : forall frag e, Some (formatError frag) = Some e ->
    (e = lengthError text \/ (exists frag, e = formatError frag)
     \/ e = errInvalidFormat)
    /\ (e ≠ errInvalidFormat -> u = u)
    /\ (e = errInvalidFormat ->
        let c := content text in
        let p := validPrefix (pairOffsets c) c in
        (length p < 16)%nat /\ u = p ++ drop (length p) u)).
  { intros frag e [= <-]. split; [right; left; eexists; reflexivity|].
    split; [reflexivity | discriminate]. }
  unfold unmarshalResult. cbv zeta.
  destruct ((length text =? 32) || (length text =? 36))%nat eqn:E1.
  { assert (Hc : content text = text).
    { unfold content.
      destruct (Nat.eqb_spec (length text) 32) as [->|];
        [reflexivity|].
      destruct (Nat.eqb_spec (length text) 36) as [->|];
        [reflexivity | discriminate]. }
    rewrite Hc in Hd. rewrite Hc. exact Hd. }
  destruct ((length text =? 34) || (length text =? 38))%nat eqn:E2.
  { destruct (bracesOk text); [exact Hd | cbn [fst snd]; apply Hf]. }
  destruct ((length text =? 41) || (length text =? 45))%nat eqn:E3.
  { destruct (urnOk text); [exact Hd | cbn [fst snd]; apply Hf]. }
  cbn [fst snd]. intros e [= <-].
  split; [left; reflexivity|]. split; [reflexivity | discriminate].
Qed.

(** C1, as stated, fails: with a [g] in the last hex slot the decode
    reports [errInvalidFormat] after it has stored the first fifteen
    bytes in the destination. *)
Lemma UnmarshalText_partial_write :
  UnmarshalText Nil (lit "6ba7b810-9dad-11d1-80b4-00c04fd430cg")
  = Ok ([107; 167; 184; 16; 157; 173; 17; 209;
         128; 180; 0; 192; 79; 212; 48; 0], Some errInvalidFormat)
  /\ [107; 167; 184; 16; 157; 173; 17; 209;
      128; 180; 0; 192; 79; 212; 48; 0] ≠ Nil.
Proof. split; [vm_compute; reflexivity | discriminate]. Qed.

(** C5: the five spellings of the DNS namespace identifier decode, each
    without an error, to the same sixteen bytes. *)
Theorem FromString_spellings :
  let dns := [107; 167; 184; 16; 157; 173; 17; 209;
              128; 180; 0; 192; 79; 212; 48; 200] in
  FromString (lit "6ba7b810-9dad-11d1-80b4-00c04fd430c8") = Ok (dns, None)
  /\ FromString (lit "{6ba7b810-9dad-11d1-80b4-00c04fd430c8}") = Ok (dns, None)
  /\ FromString (lit "6ba7b8109dad11d180b400c04fd430c8") = Ok (dns, None)
  /\ FromString (lit "{6ba7b8109dad11d180b400c04fd430c8}") = Ok (dns, None)
  /\ FromString (lit "urn:uuid:6ba7b810-9dad-11d1-80b4-00c04fd430c8")
     = Ok (dns, None).
Proof. repeat split; vm_compute; reflexivity. Qed.

(** ** The binary codec and the wrappers *)

Section Binary.

Lemma copy_16 (u data : list Z) :
  length u = 16%nat -> length data = 16%nat -> copy u data = data.
Proof.
  intros Hu Hd. unfold copy.
  rewrite take_ge by lia. rewrite drop_ge by lia. apply app_nil_r.
Qed.

Lemma UnmarshalBinary_ok (u data : list Z) :
  length u = 16%nat -> length data = 16%nat ->
  UnmarshalBinary u data = (data, None).
Proof.
  intros Hu Hd. unfold UnmarshalBinary. rewrite Hd. cbn [Nat.eqb Size negb].
  rewrite copy_16 by assumption. reflexivity.
Qed.

Lemma UnmarshalBinary_fail (u data : list Z) :
  length data ≠ 16%nat ->
  UnmarshalBinary u data
  = (u, Some (fmt_Errorf
                "uuid: UUID must be exactly 16 bytes long, got %d bytes"
                [OpInt (Z.of_nat (length data))])).
Proof.
  intros Hd. unfold UnmarshalBinary.
  destruct (Nat.eqb_spec (length data) Size) as [E|_]; [contradiction|].
  reflexivity.
Qed.

End Binary.

(** C3, as the code has it: binary decoding succeeds exactly on inputs of 16 bytes,
    and then the destination is the input, so decoding what
    [MarshalBinary] returns gives the UUID back; on any other length the
    destination is untouched and the error carries the length - and only
    the length: the input itself is no operand of the message. *)
Theorem UnmarshalBinary_spec (u : UUID) (data : list Z) :
  length u = 16%nat ->
  (length data = 16%nat ->
   UnmarshalBinary u data = (data, None) /\ FromBytes data = (data, None))
  /\ (length data ≠ 16%nat ->
      let e := fmt_Errorf "uuid: UUID must be exactly 16 bytes long, got %d bytes"
                          [OpInt (Z.of_nat (length data))] in
      UnmarshalBinary u data = (u, Some e)
      /\ FromBytes data = (Nil, Some e)
      /\ includes_length e (length data) = true)
  /\ (snd (UnmarshalBinary u data) = None <-> length data = 16%nat)
  /\ FromBytes (fst (MarshalBinary u)) = (u, None).
Proof.
  intros Hu.
  split; [|split; [|split]].
  - intros Hd. split; apply UnmarshalBinary_ok; (assumption || reflexivity).
  - intros Hd e. split; [|split].
    + apply UnmarshalBinary_fail, Hd.
    + apply UnmarshalBinary_fail, Hd.
    + unfold includes_length, carries, e.
      apply bool_decide_eq_true_2. constructor.
  - split.
    + intros Hr. destruct (Nat.eq_dec (length data) 16%nat) as [E|N]; [exact E|].
      rewrite (UnmarshalBinary_fail u data N) in Hr. discriminate.
    + intros Hd. rewrite (UnmarshalBinary_ok u data Hu Hd). reflexivity.
  - apply UnmarshalBinary_ok; [reflexivity | exact Hu].
Qed.

Lemma UnmarshalBinary_spec_witness :
  FromBytes (lit "0123456789abcdef") = (lit "0123456789abcdef", None)
  /\ FromBytes (fst (MarshalBinary (lit "0123456789abcdef")))
     = (lit "0123456789abcdef", None).
Proof.
  split.
  - apply (UnmarshalBinary_spec Nil (lit "0123456789abcdef")); reflexivity.
  - apply (UnmarshalBinary_spec (lit "0123456789abcdef") []); reflexivity.
Defined.

(** C3, as stated, fails: for an input of 15 bytes the error carries the
    length 15, and the input is not part of it. *)
Lemma UnmarshalBinary_error_omits_input :
  let data := lit "0123456789abcde" in
  let e := fmt_Errorf "uuid: UUID must be exactly 16 bytes long, got %d bytes"
                      [OpInt 15] in
  FromBytes data = (Nil, Some e)
  /\ includes_length e 15 = true
  /\ includes_input e data = false.
Proof. repeat split; vm_compute; reflexivity. Qed.

(** C9: on every input on which [FromString] or [FromBytes] reports an
    error, [FromStringOrNil] and [FromBytesOrNil] return [Nil], the sixteen
    zero bytes; on every other input they return the decoded value.
    [FromString] itself returns on every input. *)
Theorem OrNil_wrappers :
  (forall input : list Z,
     exists (u : UUID) (r : option error),
       FromString input = Ok (u, r)
       /\ (r = None -> FromStringOrNil input = Ok u)
       /\ (r ≠ None -> FromStringOrNil input = Ok Nil))
  /\ (forall input : list Z,
        (snd (FromBytes input) = None ->
         FromBytesOrNil input = fst (FromBytes input))
        /\ (snd (FromBytes input) ≠ None -> FromBytesOrNil input = Nil))
  /\ Nil = [0; 0; 0; 0; 0; 0; 0; 0; 0; 0; 0; 0; 0; 0; 0; 0].
Proof.
  split; [|split].
  - intros input.
    pose proof (UnmarshalText_spec Nil eq_refl input) as Hr.
    destruct (unmarshalResult Nil input) as [u r].
    exists u, r. unfold FromStringOrNil, FromString. rewrite Hr.
    split; [reflexivity|].
    cbn [mbind res_bind]. split.
    + intros ->. reflexivity.
    + intros Hn. destruct r; [reflexivity | contradiction].
  - intros input. unfold FromBytesOrNil.
    destruct (FromBytes input) as [u [e|]]; cbn [fst snd].
    + split; [discriminate | reflexivity].
    + split; [reflexivity | contradiction].
  - reflexivity.
Qed.

Lemma OrNil_wrappers_witness :
  FromStringOrNil (lit "6ba7b810-9dad-11d1-80b4-00c04fd430cg") = Ok Nil
  /\ FromBytesOrNil (lit "0123456789abcde") = Nil.
Proof.
  destruct OrNil_wrappers as (Hs & Hb & _).
  split.
  - destruct (Hs (lit "6ba7b810-9dad-11d1-80b4-00c04fd430cg"))
      as (u & r & Hr & _ & Hn).
    apply Hn. intros ->. vm_compute in Hr. discriminate Hr.
  - apply (Hb (lit "0123456789abcde")). vm_compute. discriminate.
Defined.

(** ** The text round trip *)

Section RoundTrip.

Lemma digit_facts (b : Z) :
  Wrap.is_byte b ->
  fromHexChar (hex.digit (Z.shiftr b 4)) = (Z.shiftr b 4, true)
  /\ fromHexChar (hex.digit (Z.land b 15)) = (Z.land b 15, true)
  /\ Z.lor (Wrap.u8 (Z.shiftl (Z.shiftr b 4) 4)) (Z.land b 15) = b
  /\ is_lower_hex (hex.digit (Z.shiftr b 4)) = true
  /\ is_lower_hex (hex.digit (Z.land b 15)) = true.
Proof.
  intros Hb.
  pose proof (for_all_bytes
    (fun b =>
       (fst (fromHexChar (hex.digit (Z.shiftr b 4))) =? Z.shiftr b 4)
       && snd (fromHexChar (hex.digit (Z.shiftr b 4)))
       && (fst (fromHexChar (hex.digit (Z.land b 15))) =? Z.land b 15)
       && snd (fromHexChar (hex.digit (Z.land b 15)))
       && (Z.lor (Wrap.u8 (Z.shiftl (Z.shiftr b 4) 4)) (Z.land b 15) =? b)
       && is_lower_hex (hex.digit (Z.shiftr b 4))
       && is_lower_hex (hex.digit (Z.land b 15)))
    ltac:(vm_compute; reflexivity) b Hb) as H.
  cbv beta in H.
  repeat (apply andb_prop in H; destruct H as [H ?]).
  destruct (fromHexChar (hex.digit (Z.shiftr b 4))) as [a1 o1].
  destruct (fromHexChar (hex.digit (Z.land b 15))) as [a2 o2].
  cbn [fst snd] in *.
  repeat match goal with
         | E : (_ =? _) = true |- _ => apply Z.eqb_eq in E
         end.
  subst. auto.
Qed.

Lemma hexPair_digits (t : list Z) (x : nat) (b : Z) :
  t !! x = Some (hex.digit (Z.shiftr b 4)) ->
  t !! (x + 1)%nat = Some (hex.digit (Z.land b 15)) ->
  Wrap.is_byte b ->
  hexPair t x = Some b.
Proof.
  intros H1 H2 Hb. unfold hexPair. rewrite H1, H2.
  destruct (digit_facts b Hb) as (E1 & E2 & E3 & _).
  rewrite E1, E2. cbn [fst snd andb]. rewrite E3. reflexivity.
Qed.

Lemma shape_digits (b : Z) (i : nat) :
  Wrap.is_byte b ->
  bool_decide (i ∈ [8; 13; 18; 23]%nat) = false ->
  shape_at i (hex.digit (Z.shiftr b 4)) = true
  /\ shape_at i (hex.digit (Z.land b 15)) = true.
Proof.
  intros Hb Hi. unfold shape_at. rewrite Hi.
  destruct (digit_facts b Hb) as (_ & _ & _ & E4 & E5). auto.
Qed.

End RoundTrip.

Section CanonicalText.

Lemma hyphensOk_canonical_text (u : UUID) :
  valid u -> hyphensOk (canonical_text u) = true.
Proof.
  intros [Hl _].
  explode_uuid u Hl. reflexivity.
Qed.

Lemma validPrefix_canonical_text (u : UUID) :
  valid u ->
  validPrefix canonicalOffsets (canonical_text u) = u.
Proof.
  intros [Hl Hf].
  explode_uuid u Hl.
  rewrite !Forall_cons in Hf.
  destruct Hf as (H0 & H1 & H2 & H3 & H4 & H5 & H6 & H7 & H8 & H9
                  & H10 & H11 & H12 & H13 & H14 & H15 & _).
  cbn [validPrefix canonicalOffsets].
  repeat (erewrite hexPair_digits; [ | reflexivity | reflexivity | assumption ]).
  reflexivity.
Qed.

Lemma canonical_shape_text (u : UUID) :
  valid u -> canonical_shape (canonical_text u) = true.
Proof.
  intros [Hl Hf].
  explode_uuid u Hl.
  rewrite !Forall_cons in Hf.
  destruct Hf as (H0 & H1 & H2 & H3 & H4 & H5 & H6 & H7 & H8 & H9
                  & H10 & H11 & H12 & H13 & H14 & H15 & _).
  unfold canonical_shape.
  change (length (canonical_text _) =? 36)%nat with true.
  cbn [andb canonical_text sub hexdigits flat_map take drop Nat.sub app
       imap forallb compose].
  repeat match goal with
         | |- context [shape_at ?i (hex.digit (Z.shiftr ?b 4))] =>
             rewrite (proj1 (shape_digits b i ltac:(assumption) eq_refl))
         | |- context [shape_at ?i (hex.digit (Z.land ?b 15))] =>
             rewrite (proj2 (shape_digits b i ltac:(assumption) eq_refl))
         end.
  reflexivity.
Qed.

End CanonicalText.

Section Shape.

Lemma canonical_shape_spec (s : list Z) :
  canonical_shape s = true ->
  length s = 36%nat
  /\ forall (i : nat) (c : Z), s !! i = Some c -> shape_at i c = true.
Proof.
  unfold canonical_shape. intros H.
  apply andb_prop in H as [Hl Hall]. apply Nat.eqb_eq in Hl.
  split; [exact Hl|]. intros i c Hc.
  rewrite forallb_forall in Hall. apply Hall.
  apply list_elem_of_In, list_elem_of_lookup. exists i.
  rewrite list_lookup_imap, Hc. reflexivity.
Qed.

Lemma decode_canonical_text (u dst : UUID) :
  valid u -> length dst = 16%nat ->
  UnmarshalText dst (canonical_text u) = Ok (u, None).
Proof.
  intros Hu Hdst.
  pose proof Hu as [Hl _].
  rewrite (UnmarshalText_spec dst Hdst).
  unfold unmarshalResult, decodeResult, pairOffsets. cbv zeta.
  rewrite (canonical_text_length u Hl). cbn [Nat.eqb orb andb].
  rewrite (hyphensOk_canonical_text u Hu). cbn [negb].
  rewrite (validPrefix_canonical_text u Hu).
  rewrite Hl. cbn [Nat.eqb Size].
  rewrite drop_ge by (rewrite Hdst; reflexivity).
  rewrite app_nil_r. reflexivity.
Qed.

End Shape.

(** C2: for every UUID [u], [String] and [MarshalText] produce the same 36
    characters: a hyphen at offsets 8, 13, 18 and 23 and a lowercase hex
    digit at every other offset; [UnmarshalText] decodes them, into any
    destination, to [u] without an error. *)
Theorem text_round_trip (u dst : UUID) :
  valid u -> length dst = 16%nat ->
  exists s : list Z,
    String u = Ok s
    /\ MarshalText u = Ok (s, None)
    /\ length s = 36%nat
    /\ (forall (i : nat) (c : Z), s !! i = Some c ->
        if bool_decide (i ∈ [8; 13; 18; 23]%nat)
        then c = chr "-" else is_lower_hex c = true)
    /\ UnmarshalText dst s = Ok (u, None)
    /\ FromString s = Ok (u, None).
Proof.
  intros Hu Hdst. pose proof Hu as [Hl _].
  exists (canonical_text u).
  pose proof (String_canonical u Hl) as Hs.
  destruct (canonical_shape_spec _ (canonical_shape_text u Hu)) as [H36 Hshape].
  split; [exact Hs|].
  split. { unfold MarshalText. unfold String in Hs. rewrite Hs. reflexivity. }
  split; [exact H36|].
  split.
  { intros i c Hc. specialize (Hshape i c Hc). unfold shape_at in Hshape.
    destruct (bool_decide (i ∈ [8; 13; 18; 23]%nat)); [|exact Hshape].
    apply Z.eqb_eq, Hshape. }
  split; [apply decode_canonical_text; assumption|].
  apply decode_canonical_text; [assumption | reflexivity].
Qed.

Lemma text_round_trip_witness :
  exists s : list Z,
    String (lit "0123456789abcdef") = Ok s
    /\ MarshalText (lit "0123456789abcdef") = Ok (s, None)
    /\ length s = 36%nat
    /\ (forall (i : nat) (c : Z), s !! i = Some c ->
        if bool_decide (i ∈ [8; 13; 18; 23]%nat)
        then c = chr "-" else is_lower_hex c = true)
    /\ UnmarshalText (replicate 16 255) s = Ok (lit "0123456789abcdef", None)
    /\ FromString s = Ok (lit "0123456789abcdef", None).
Proof.
  apply (text_round_trip (lit "0123456789abcdef") (replicate 16 255)).
  - apply validb_spec. reflexivity.
  - reflexivity.
Defined.

(** * Further properties *)

(** ** The variant and version bits *)

Section VariantBits.

Lemma variant_of_ranges (b : Z) :
  Wrap.is_byte b ->
  (variant_of b = VariantNCS <-> b < 128)
  /\ (variant_of b = VariantRFC4122 <-> 128 <= b < 192)
  /\ (variant_of b = VariantMicrosoft <-> 192 <= b < 224)
  /\ (variant_of b = VariantFuture <-> 224 <= b)
  /\ (Z.shiftr b 7 =? 0) || (Z.shiftr b 6 =? 2) || (Z.shiftr b 5 =? 6)
     || (Z.shiftr b 5 =? 7) = true.
Proof.
  intros Hb.
  pose proof (for_all_bytes
    (fun b =>
       Bool.eqb (variant_of b =? VariantNCS) (b <? 128)
       && Bool.eqb (variant_of b =? VariantRFC4122) ((128 <=? b) && (b <? 192))
       && Bool.eqb (variant_of b =? VariantMicrosoft) ((192 <=? b) && (b <? 224))
       && Bool.eqb (variant_of b =? VariantFuture) (224 <=? b)
       && ((Z.shiftr b 7 =? 0) || (Z.shiftr b 6 =? 2) || (Z.shiftr b 5 =? 6)
           || (Z.shiftr b 5 =? 7)))
    ltac:(vm_compute; reflexivity) b Hb) as H.
  cbv beta in H.
  apply andb_prop in H as [H E5]. apply andb_prop in H as [H E4].
  apply andb_prop in H as [H E3]. apply andb_prop in H as [E1 E2].
  apply Bool.eqb_prop in E1, E2, E3, E4.
  split; [|split; [|split; [|split]]].
  - rewrite <- Z.eqb_eq, E1. lia.
  - rewrite <- Z.eqb_eq, E2. lia.
  - rewrite <- Z.eqb_eq, E3. lia.
  - rewrite <- Z.eqb_eq, E4. lia.
  - exact E5.
Qed.

Lemma variant_byte_default (b x : Z) :
  x ≠ VariantNCS -> x ≠ VariantRFC4122 -> x ≠ VariantMicrosoft ->
  variant_byte b x = variant_byte b VariantFuture.
Proof.
  intros H0 H1 H2. unfold variant_byte.
  destruct (Z.eqb_spec x VariantNCS); [contradiction|].
  destruct (Z.eqb_spec x VariantRFC4122); [contradiction|].
  destruct (Z.eqb_spec x VariantMicrosoft); [contradiction|].
  reflexivity.
Qed.

(** Every tag is treated as one of the four named ones. *)
Lemma variant_byte_cases (b x : Z) :
  exists t, In t [VariantNCS; VariantRFC4122; VariantMicrosoft; VariantFuture]
            /\ variant_byte b x = variant_byte b t
            /\ canonical_variant x = t.
Proof.
  unfold canonical_variant.
  destruct (Z.eqb_spec x VariantNCS) as [ -> | H0 ];
    [exists VariantNCS; cbn; auto|].
  destruct (Z.eqb_spec x VariantRFC4122) as [ -> | H1 ];
    [exists VariantRFC4122; cbn; auto|].
  destruct (Z.eqb_spec x VariantMicrosoft) as [ -> | H2 ];
    [exists VariantMicrosoft; cbn; auto|].
  exists VariantFuture. cbn. split; [auto|].
  split; [by apply variant_byte_default | reflexivity].
Qed.

Lemma variant_byte_bits (b : Z) :
  Wrap.is_byte b ->
  forall t, In t [VariantNCS; VariantRFC4122; VariantMicrosoft; VariantFuture] ->
    Z.land (variant_byte b t) 31 = Z.land b 31
    /\ (t = VariantNCS -> Z.land (variant_byte b t) 127 = Z.land b 127)
    /\ (t = VariantRFC4122 -> Z.land (variant_byte b t) 63 = Z.land b 63)
    /\ variant_byte (variant_byte b t) t = variant_byte b t
    /\ (variant_of b = t -> variant_byte b t = b).
Proof.
  intros Hb t Ht.
  pose proof (for_all_bytes
    (fun b =>
       forallb (fun t =>
         (Z.land (variant_byte b t) 31 =? Z.land b 31)
         && (negb (t =? VariantNCS)
             || (Z.land (variant_byte b t) 127 =? Z.land b 127))
         && (negb (t =? VariantRFC4122)
             || (Z.land (variant_byte b t) 63 =? Z.land b 63))
         && (variant_byte (variant_byte b t) t =? variant_byte b t)
         && (negb (variant_of b =? t) || (variant_byte b t =? b)))
       [VariantNCS; VariantRFC4122; VariantMicrosoft; VariantFuture])
    ltac:(vm_compute; reflexivity) b Hb) as H.
  cbv beta in H. rewrite forallb_forall in H. specialize (H t Ht).
  apply andb_prop in H as [H P5]. apply andb_prop in H as [H P4].
  apply andb_prop in H as [H P3]. apply andb_prop in H as [P1 P2].
  apply Z.eqb_eq in P1, P4.
  split; [exact P1|].
  split. { intros ->. cbn in P2. apply Z.eqb_eq, P2. }
  split. { intros ->. cbn in P3. apply Z.eqb_eq, P3. }
  split; [exact P4|].
  intros E. rewrite E, Z.eqb_refl in P5. cbn in P5. apply Z.eqb_eq, P5.
Qed.

End VariantBits.

(** X1: [Variant] depends on byte 8 only, by its range: NCS below 128,
    RFC4122 from 128 to 191, Microsoft from 192 to 223, Future from 224
    on; one of the four tests of the switch always holds, so its default
    arm is never the one taken. *)
Theorem Variant_ranges (u : UUID) :
  valid u ->
  (Variant u = VariantNCS <-> get u 8 < 128)
  /\ (Variant u = VariantRFC4122 <-> 128 <= get u 8 < 192)
  /\ (Variant u = VariantMicrosoft <-> 192 <= get u 8 < 224)
  /\ (Variant u = VariantFuture <-> 224 <= get u 8)
  /\ (Z.shiftr (get u 8) 7 =? 0) || (Z.shiftr (get u 8) 6 =? 2)
     || (Z.shiftr (get u 8) 5 =? 6) || (Z.shiftr (get u 8) 5 =? 7) = true.
Proof.
  intros Hu. rewrite Variant_unfold.
  apply variant_of_ranges, get_is_byte, Hu.
Qed.

Lemma Variant_ranges_witness :
  Variant (lit "0123456789abcdef") = VariantNCS <-> 56 < 128.
Proof.
  apply (Variant_ranges (lit "0123456789abcdef")).
  apply validb_spec. reflexivity.
Defined.

(** X2: [SetVariant] changes byte 8 only, and never its low five bits;
    for the NCS tag it keeps the low seven bits and for RFC4122 the low
    six. *)
Theorem SetVariant_keeps_low_bits (u : UUID) (x : Z) :
  valid u ->
  (forall i : nat, i ≠ 8%nat -> SetVariant u x !! i = u !! i)
  /\ Z.land (get (SetVariant u x) 8) 31 = Z.land (get u 8) 31
  /\ (x = VariantNCS ->
      Z.land (get (SetVariant u x) 8) 127 = Z.land (get u 8) 127)
  /\ (x = VariantRFC4122 ->
      Z.land (get (SetVariant u x) 8) 63 = Z.land (get u 8) 63).
Proof.
  intros Hu.
  assert (H8 : get (SetVariant u x) 8 = variant_byte (get u 8) x).
  { rewrite SetVariant_unfold. apply get_insert_eq.
    rewrite (valid_length u Hu). lia. }
  pose proof (get_is_byte u 8 Hu) as Hb.
  split.
  { intros i Hi. rewrite SetVariant_unfold. by apply list_lookup_insert_ne. }
  rewrite H8.
  split.
  { destruct (variant_byte_cases (get u 8) x) as (t & Ht & -> & _).
    apply (variant_byte_bits _ Hb t Ht). }
  split.
  - intros ->. apply (variant_byte_bits _ Hb VariantNCS); cbn; auto.
  - intros ->. apply (variant_byte_bits _ Hb VariantRFC4122); cbn; auto.
Qed.

Lemma SetVariant_keeps_low_bits_witness :
  Z.land (get (SetVariant (lit "0123456789abcdef") VariantFuture) 8) 31
  = Z.land (get (lit "0123456789abcdef") 8) 31.
Proof.
  apply (SetVariant_keeps_low_bits (lit "0123456789abcdef") VariantFuture).
  apply validb_spec. reflexivity.
Defined.

(** X3: writing back what the accessors read changes nothing:
    [SetVersion] with [Version u] and [SetVariant] with [Variant u] both
    return [u]. *)
Theorem setters_read_back (u : UUID) :
  valid u ->
  SetVersion u (Version u) = u /\ SetVariant u (Variant u) = u.
Proof.
  intros Hu. pose proof (valid_length u Hu) as Hl. split.
  - rewrite SetVersion_unfold. apply list_insert_id.
    destruct (lookup_lt_is_Some_2 u 6 ltac:(lia)) as [b Hb].
    assert (Hg : get u 6 = b) by (unfold get; rewrite Hb; reflexivity).
    unfold Version. rewrite Hg, Hb. f_equal.
    pose proof (get_is_byte u 6 Hu) as Hr. rewrite Hg in Hr.
    symmetry. apply Z.eqb_eq.
    apply (for_all_bytes (fun b => version_byte b (Z.shiftr b 4) =? b));
      [vm_compute; reflexivity | exact Hr].
  - rewrite SetVariant_unfold, Variant_unfold. apply list_insert_id.
    destruct (lookup_lt_is_Some_2 u 8 ltac:(lia)) as [b Hb].
    assert (Hg : get u 8 = b) by (unfold get; rewrite Hb; reflexivity).
    rewrite Hg, Hb. f_equal.
    pose proof (get_is_byte u 8 Hu) as Hr. rewrite Hg in Hr.
    destruct (variant_byte_cases b (variant_of b)) as (t & Ht & E & Ec).
    assert (Hv : variant_of b = t).
    { rewrite <- Ec. unfold canonical_variant, variant_of.
      destruct (Z.shiftr b 7 =? 0); [reflexivity|].
      destruct (Z.shiftr b 6 =? 2); [reflexivity|].
      destruct (Z.shiftr b 5 =? 6); [reflexivity|].
      destruct (Z.shiftr b 5 =? 7); reflexivity. }
    rewrite E. symmetry. apply (variant_byte_bits b Hr t Ht). exact Hv.
Qed.

Lemma setters_read_back_witness :
  SetVersion (lit "0123456789abcdef") (Version (lit "0123456789abcdef"))
  = lit "0123456789abcdef".
Proof.
  apply (setters_read_back (lit "0123456789abcdef")).
  apply validb_spec. reflexivity.
Defined.

(** X4: the last [SetVersion] wins, whatever version was set before, and
    [SetVariant] with the same tag twice is [SetVariant] once. *)
Theorem setters_overwrite (u : UUID) (v w x : Z) :
  valid u -> Wrap.is_byte v -> Wrap.is_byte w ->
  SetVersion (SetVersion u v) w = SetVersion u w
  /\ SetVariant (SetVariant u x) x = SetVariant u x.
Proof.
  intros Hu Hv Hw. pose proof (valid_length u Hu) as Hl. split.
  - rewrite !SetVersion_unfold.
    rewrite get_insert_eq by lia. rewrite list_insert_insert_eq.
    f_equal. unfold version_byte at 1 3.
    destruct (version_byte_facts (get u 6) v (get_is_byte u 6 Hu) Hv)
      as (_ & _ & ->).
    reflexivity.
  - rewrite !SetVariant_unfold.
    rewrite get_insert_eq by lia. rewrite list_insert_insert_eq.
    f_equal.
    destruct (variant_byte_cases (get u 8) x) as (t & Ht & E & Ec).
    destruct (variant_byte_cases (variant_byte (get u 8) x) x)
      as (t' & _ & E' & Ec').
    rewrite E'. rewrite <- Ec', Ec. rewrite E.
    apply (variant_byte_bits _ (get_is_byte u 8 Hu) t Ht).
Qed.

Lemma setters_overwrite_witness :
  SetVersion (SetVersion (lit "0123456789abcdef") 7) 4
  = SetVersion (lit "0123456789abcdef") 4.
Proof.
  apply (setters_overwrite (lit "0123456789abcdef") 7 4 0).
  - apply validb_spec. reflexivity.
  - unfold Wrap.is_byte. lia.
  - unfold Wrap.is_byte. lia.
Defined.

(** ** Hex digits *)

Section HexDigits.

Lemma fromHexChar_spec (c : Z) :
  fromHexChar c = if is_hexdig c then (hexval c, true) else (0, false).
Proof.
  unfold fromHexChar, is_hexdig, hexval, Wrap.u8.
  change (chr "0") with 48. change (chr "9") with 57.
  change (chr "a") with 97. change (chr "f") with 102.
  change (chr "A") with 65. change (chr "F") with 70.
  destruct ((48 <=? c) && (c <=? 57)) eqn:E1; cbn [orb].
  { f_equal. apply Z.mod_small. lia. }
  destruct ((97 <=? c) && (c <=? 102)) eqn:E2; cbn [orb].
  { f_equal. rewrite (Z.mod_small (c - 97)) by lia. apply Z.mod_small. lia. }
  destruct ((65 <=? c) && (c <=? 70)) eqn:E3; [|reflexivity].
  f_equal. rewrite (Z.mod_small (c - 65)) by lia. apply Z.mod_small. lia.
Qed.

Lemma is_hexdig_byte (c : Z) : is_hexdig c = true -> Wrap.is_byte c.
Proof.
  unfold is_hexdig, Wrap.is_byte.
  change (chr "0") with 48. change (chr "9") with 57.
  change (chr "a") with 97. change (chr "f") with 102.
  change (chr "A") with 65. change (chr "F") with 70.
  lia.
Qed.

Lemma hexdig_facts (c : Z) :
  is_hexdig c = true ->
  0 <= hexval c < 16
  /\ is_hexdig (upperc c) = true
  /\ hexval (upperc c) = hexval c
  /\ upperc (hex.digit (hexval c)) = upperc c.
Proof.
  intros Hc.
  pose proof (for_all_bytes
    (fun c => negb (is_hexdig c)
              || ((0 <=? hexval c) && (hexval c <? 16)
                  && is_hexdig (upperc c)
                  && (hexval (upperc c) =? hexval c)
                  && (upperc (hex.digit (hexval c)) =? upperc c)))
    ltac:(vm_compute; reflexivity) c (is_hexdig_byte c Hc)) as H.
  cbv beta in H. rewrite Hc in H. cbn [negb orb] in H.
  apply andb_prop in H as [H P4]. apply andb_prop in H as [H P3].
  apply andb_prop in H as [H P2].
  apply Z.eqb_eq in P3, P4. split; [lia | auto].
Qed.

Lemma upperc_not_hexdig (c : Z) :
  is_hexdig c = false -> upperc c = c /\ is_hexdig (upperc c) = false.
Proof.
  unfold is_hexdig, upperc.
  destruct ((chr "a" <=? c) && (c <=? chr "f")) eqn:E.
  - rewrite Bool.orb_true_r. discriminate.
  - intros H. rewrite E. auto.
Qed.

Lemma fromHexChar_upperc (c : Z) : fromHexChar (upperc c) = fromHexChar c.
Proof.
  rewrite !fromHexChar_spec.
  destruct (is_hexdig c) eqn:Hc.
  - destruct (hexdig_facts c Hc) as (_ & -> & -> & _). reflexivity.
  - destruct (upperc_not_hexdig c Hc) as (_ & ->). reflexivity.
Qed.

Lemma nibbles_byte (a b : Z) :
  0 <= a < 16 -> 0 <= b < 16 ->
  let v := Z.lor (Wrap.u8 (Z.shiftl a 4)) b in
  Wrap.is_byte v /\ Z.shiftr v 4 = a /\ Z.land v 15 = b /\ v = 16 * a + b.
Proof.
  intros Ha Hb v. subst v.
  pose proof (for_all_bytes2
    (fun a b => negb ((a <? 16) && (b <? 16))
                || (Wrap.is_byteb (Z.lor (Wrap.u8 (Z.shiftl a 4)) b)
                    && (Z.shiftr (Z.lor (Wrap.u8 (Z.shiftl a 4)) b) 4 =? a)
                    && (Z.land (Z.lor (Wrap.u8 (Z.shiftl a 4)) b) 15 =? b)
                    && (Z.lor (Wrap.u8 (Z.shiftl a 4)) b =? 16 * a + b)))
    ltac:(vm_compute; reflexivity) a b
    ltac:(unfold Wrap.is_byte; lia) ltac:(unfold Wrap.is_byte; lia)) as H.
  cbv beta in H.
  replace ((a <? 16) && (b <? 16)) with true in H by lia.
  cbn [negb orb] in H.
  apply andb_prop in H as [H P4]. apply andb_prop in H as [H P3].
  apply andb_prop in H as [P1 P2].
  apply is_byteb_spec in P1. apply Z.eqb_eq in P2, P3, P4. auto.
Qed.

(** [hexPair] in terms of the two characters. *)
Lemma hexPair_spec (t : list Z) (x : nat) :
  hexPair t x
  = match t !! x, t !! (x + 1)%nat with
    | Some c1, Some c2 =>
        if is_hexdig c1 && is_hexdig c2
        then Some (Z.lor (Wrap.u8 (Z.shiftl (hexval c1) 4)) (hexval c2))
        else None
    | _, _ => None
    end.
Proof.
  unfold hexPair.
  destruct (t !! x) as [c1|]; [|reflexivity].
  destruct (t !! (x + 1)%nat) as [c2|]; [|reflexivity].
  rewrite !fromHexChar_spec.
  destruct (is_hexdig c1), (is_hexdig c2); reflexivity.
Qed.

Lemma hexPair_pairOk (t : list Z) (x : nat) :
  pairOk t x = match hexPair t x with Some _ => true | None => false end.
Proof.
  rewrite hexPair_spec. unfold pairOk, hexAt.
  destruct (t !! x) as [c1|]; [|reflexivity].
  destruct (t !! (x + 1)%nat) as [c2|]; [|apply Bool.andb_false_r].
  destruct (is_hexdig c1 && is_hexdig c2); reflexivity.
Qed.

Lemma hexPair_byte (t : list Z) (x : nat) (v : Z) :
  hexPair t x = Some v -> Wrap.is_byte v.
Proof.
  rewrite hexPair_spec.
  destruct (t !! x) as [c1|]; [|discriminate].
  destruct (t !! (x + 1)%nat) as [c2|]; [|discriminate].
  destruct (is_hexdig c1) eqn:H1; [|discriminate].
  destruct (is_hexdig c2) eqn:H2; [|discriminate].
  cbn [andb]. intros [= <-].
  apply nibbles_byte; apply hexdig_facts; assumption.
Qed.

Lemma validPrefix_bytes (xs : list nat) (t : list Z) :
  Forall Wrap.is_byte (validPrefix xs t).
Proof.
  induction xs as [|x xs IH]; cbn [validPrefix]; [constructor|].
  destruct (hexPair t x) as [v|] eqn:E; [|constructor].
  constructor; [by eapply hexPair_byte | exact IH].
Qed.

Lemma validPrefix_full (xs : list nat) (t : list Z) :
  (length (validPrefix xs t) =? length xs)%nat = forallb (pairOk t) xs.
Proof.
  induction xs as [|x xs IH]; cbn [validPrefix forallb length]; [reflexivity|].
  rewrite hexPair_pairOk.
  destruct (hexPair t x) as [v|]; cbn [length andb Nat.eqb]; [exact IH|].
  reflexivity.
Qed.

End HexDigits.

(** X5: [fromHexChar] accepts exactly the digits 0-9, a-f and A-F, returns
    their value, which is below 16, and returns 0 with [false] for every
    other byte; a letter and its upper-case form decode alike, and every
    digit of the encoder's table decodes to its index. *)
Theorem fromHexChar_digits (c : Z) :
  (is_hexdig c = true ->
   fromHexChar c = (hexval c, true) /\ 0 <= hexval c < 16
   /\ fromHexChar (upperc c) = fromHexChar c
   /\ fromHexChar (hex.digit (hexval c)) = (hexval c, true))
  /\ (is_hexdig c = false -> fromHexChar c = (0, false)).
Proof.
  split.
  - intros Hc. pose proof (fromHexChar_spec c) as Hs. rewrite Hc in Hs.
    destruct (hexdig_facts c Hc) as (Hr & _).
    split; [exact Hs|]. split; [exact Hr|].
    split; [apply fromHexChar_upperc|].
    pose proof (for_all_bytes
      (fun n => negb (n <? 16)
                || ((fst (fromHexChar (hex.digit n)) =? n)
                    && snd (fromHexChar (hex.digit n))))
      ltac:(vm_compute; reflexivity) (hexval c)
      ltac:(unfold Wrap.is_byte; lia)) as H.
    cbv beta in H.
    replace (hexval c <? 16) with true in H by lia. cbn [negb orb] in H.
    apply andb_prop in H as [P1 P2]. apply Z.eqb_eq in P1.
    destruct (fromHexChar (hex.digit (hexval c))) as [a ok].
    cbn [fst snd] in *. subst. reflexivity.
  - intros Hc. rewrite fromHexChar_spec, Hc. reflexivity.
Qed.

Lemma fromHexChar_digits_witness :
  fromHexChar (chr "E") = (14, true) /\ 0 <= 14 < 16
  /\ fromHexChar (upperc (chr "E")) = fromHexChar (chr "E")
  /\ fromHexChar (hex.digit 14) = (14, true).
Proof.
  apply (fromHexChar_digits (chr "E")). reflexivity.
Defined.

(** X7: whatever the text and whatever the outcome, [UnmarshalText]
    returns and leaves a valid UUID in the destination: sixteen bytes,
    each in range. *)
Theorem UnmarshalText_keeps_valid (u : UUID) (text : list Z) :
  valid u ->
  exists (u' : UUID) (r : option error),
    UnmarshalText u text = Ok (u', r) /\ valid u'.
Proof.
  intros Hu. pose proof Hu as [Hl Hf].
  rewrite (UnmarshalText_spec u Hl text).
  assert (Hd : forall c, valid (fst (decodeResult u c))).
  { intros c. unfold decodeResult.
    destruct ((length c =? 36)%nat && negb (hyphensOk c)); cbn [fst];
      [exact Hu|].
    pose proof (validPrefix_length (pairOffsets c) c) as Hle.
    rewrite pairOffsets_length in Hle.
    split.
    - rewrite length_app, length_drop, Hl. unfold Size. lia.
    - apply Forall_app. split; [apply validPrefix_bytes|].
      by apply Forall_drop. }
  exists (fst (unmarshalResult u text)), (snd (unmarshalResult u text)).
  split; [destruct (unmarshalResult u text); reflexivity|].
  unfold unmarshalResult. cbv zeta.
  destruct ((length text =? 32) || (length text =? 36))%nat; [apply Hd|].
  destruct ((length text =? 34) || (length text =? 38))%nat.
  { destruct (bracesOk text); [apply Hd | exact Hu]. }
  destruct ((length text =? 41) || (length text =? 45))%nat.
  { destruct (urnOk text); [apply Hd | exact Hu]. }
  exact Hu.
Qed.

Lemma UnmarshalText_keeps_valid_witness :
  exists (u' : UUID) (r : option error),
    UnmarshalText (replicate 16 255)
                  (lit "6ba7b810-9dad-11d1-80b4-00c04fd430cg") = Ok (u', r)
    /\ valid u'.
Proof.
  apply (UnmarshalText_keeps_valid (replicate 16 255)).
  apply validb_spec. reflexivity.
Defined.

(** ** The texts that decode *)

From Stdlib Require Import Btauto.

Tactic Notation "explode_list" ident(t) hyp(H) integer(n) :=
  do n (destruct t as [|? t]; [discriminate H|]);
  destruct t; [|discriminate H].

Section Accepted.

Lemma pairs_hashlike (c : list Z) :
  length c = 32%nat ->
  forallb (pairOk c) hashOffsets = forallb is_hexdig c.
Proof.
  intros H. explode_list c H 32.
  cbv -[is_hexdig]. btauto.
Qed.

Lemma pairs_canonical (c : list Z) :
  length c = 36%nat ->
  hyphensOk c && forallb (pairOk c) canonicalOffsets
  = forallb (fun b => b) (imap accept_at c).
Proof.
  intros H. explode_list c H 36.
  cbv -[is_hexdig Z.eqb]. btauto.
Qed.


Lemma plain_length (c : list Z) :
  plain c = true -> length c = 32%nat \/ length c = 36%nat.
Proof.
  unfold plain, canonical, hashlike. intros H.
  apply Bool.orb_prop in H as [H|H]; apply andb_prop in H as [H _];
    apply Nat.eqb_eq in H; auto.
Qed.

Lemma decodeResult_success (u : UUID) (c : list Z) :
  length c = 32%nat \/ length c = 36%nat ->
  (snd (decodeResult u c) = None <-> plain c = true)
  /\ (snd (decodeResult u c) = None ->
      fst (decodeResult u c) = validPrefix (pairOffsets c) c
                               ++ drop 16 u).
Proof.
  intros Hc.
  assert (Hs : snd (decodeResult u c) = None <-> plain c = true).
  { unfold decodeResult, plain, canonical, hashlike, pairOffsets.
    destruct Hc as [Hc|Hc]; rewrite Hc; cbn [Nat.eqb andb orb].
    - change 16%nat with (length hashOffsets).
      rewrite validPrefix_full, (pairs_hashlike c Hc).
      destruct (forallb is_hexdig c); cbn [snd]; split; congruence.
    - rewrite <- (pairs_canonical c Hc).
      change 16%nat with (length canonicalOffsets).
      rewrite validPrefix_full, Bool.orb_false_r.
      destruct (hyphensOk c); cbn [negb andb snd]; [|split; congruence].
      destruct (forallb (pairOk c) canonicalOffsets); cbn [snd];
        split; congruence. }
  split; [exact Hs|].
  unfold decodeResult.
  destruct ((length c =? 36)%nat && negb (hyphensOk c)); cbn [fst snd];
    [discriminate|].
  destruct (Nat.eqb_spec (length (validPrefix (pairOffsets c) c)) 16)
    as [E|N]; [|discriminate].
  intros _. rewrite E. reflexivity.
Qed.

Lemma braced_content (p : list Z) :
  plain p = true ->
  let t := chr "{" :: p ++ [chr "}"] in
  bracesOk t = true /\ content t = p
  /\ (length t = 34%nat \/ length t = 38%nat).
Proof.
  intros Hp t. subst t.
  destruct (plain_length p Hp) as [H|H].
  - explode_list p H 32. repeat split; try reflexivity. left. reflexivity.
  - explode_list p H 36. repeat split; try reflexivity. right. reflexivity.
Qed.

Lemma urn_content (p : list Z) :
  plain p = true ->
  let t := lit "urn:uuid:" ++ p in
  urnOk t = true /\ content t = p
  /\ (length t = 41%nat \/ length t = 45%nat).
Proof.
  intros Hp t. subst t.
  destruct (plain_length p Hp) as [H|H].
  - explode_list p H 32. repeat split; try reflexivity. left. reflexivity.
  - explode_list p H 36. repeat split; try reflexivity. right. reflexivity.
Qed.

Lemma braces_shape (t : list Z) :
  (2 <= length t)%nat -> bracesOk t = true ->
  t = chr "{" :: take (length t - 2) (drop 1 t) ++ [chr "}"].
Proof.
  intros Hl Hb. destruct t as [|c0 rest]; [cbn in Hl; lia|].
  cbn [length] in Hl.
  destruct (exists_last (l := rest)) as (init & l & ->).
  { intros ->. cbn in Hl. lia. }
  assert (Hlast : (c0 :: init ++ [l]) !! (length (c0 :: init ++ [l]) - 1)%nat
                  = Some l).
  { replace (length (c0 :: init ++ [l]) - 1)%nat with (S (length init))
      by (cbn [length]; rewrite length_app; cbn [length]; lia).
    change ((c0 :: init ++ [l]) !! S (length init))
      with ((init ++ [l]) !! length init).
    apply list_lookup_middle. reflexivity. }
  unfold bracesOk in Hb. rewrite Hlast in Hb.
  change ((c0 :: init ++ [l]) !! 0%nat) with (Some c0) in Hb.
  apply andb_prop in Hb as [H0 H1]. apply Z.eqb_eq in H0, H1. subst c0 l.
  replace (length (chr "{" :: init ++ [chr "}"]) - 2)%nat with (length init)
    by (cbn [length]; rewrite length_app; cbn [length]; lia).
  change (drop 1 (chr "{" :: init ++ [chr "}"])) with (init ++ [chr "}"]).
  rewrite take_app_length. reflexivity.
Qed.

End Accepted.

Section AcceptedTexts.

Variable u : UUID.
Hypothesis u_len : length u = 16%nat.

Lemma either_length (n a b : nat) :
  ((n =? a) || (n =? b))%nat = true -> n = a \/ n = b.
Proof.
  intros H. apply Bool.orb_prop in H as [H|H]; apply Nat.eqb_eq in H; auto.
Qed.

Lemma unmarshalResult_accepts (text : list Z) :
  snd (unmarshalResult u text) = None -> uuid_text text.
Proof.
  unfold unmarshalResult. cbv zeta.
  destruct ((length text =? 32) || (length text =? 36))%nat eqn:E1.
  { intros H. left.
    by apply (decodeResult_success u text (either_length _ _ _ E1)). }
  destruct ((length text =? 34) || (length text =? 38))%nat eqn:E2.
  { destruct (bracesOk text) eqn:Hb; [|discriminate].
    intros H. right. left. exists (content text).
    assert (Hc : content text = take (length text - 2) (drop 1 text)).
    { unfold content. rewrite E2. reflexivity. }
    assert (Hl : length (content text) = 32%nat \/ length (content text) = 36%nat).
    { rewrite Hc, length_take, length_drop.
      destruct (either_length _ _ _ E2); lia. }
    split; [by apply (decodeResult_success u (content text) Hl)|].
    rewrite Hc. apply braces_shape; [|exact Hb].
    destruct (either_length _ _ _ E2); lia. }
  destruct ((length text =? 41) || (length text =? 45))%nat eqn:E3.
  { destruct (urnOk text) eqn:Hb; [|discriminate].
    intros H. right. right. exists (content text).
    assert (Hc : content text = drop 9 text).
    { unfold content. rewrite E2, E3. reflexivity. }
    assert (Hl : length (content text) = 32%nat \/ length (content text) = 36%nat).
    { rewrite Hc, length_drop. destruct (either_length _ _ _ E3); lia. }
    split; [by apply (decodeResult_success u (content text) Hl)|].
    unfold urnOk in Hb. apply bool_decide_eq_true_1 in Hb.
    rewrite Hc, <- Hb. symmetry. apply take_drop. }
  discriminate.
Qed.

Lemma accepted_unmarshalResult (text : list Z) :
  uuid_text text ->
  unmarshalResult u text
  = (validPrefix (pairOffsets (content text)) (content text), None).
Proof.
  assert (Hd : forall c, plain c = true ->
                decodeResult u c = (validPrefix (pairOffsets c) c, None)).
  { intros c Hp.
    destruct (decodeResult_success u c (plain_length c Hp)) as [Hs Hv].
    apply Hs in Hp. specialize (Hv Hp).
    rewrite drop_ge, app_nil_r in Hv by (rewrite u_len; reflexivity).
    destruct (decodeResult u c) as [a b]. cbn [fst snd] in *. congruence. }
  intros [Hp | [(p & Hp & ->) | (p & Hp & ->)]].
  - unfold unmarshalResult, content. cbv zeta.
    destruct (plain_length text Hp) as [H|H]; rewrite H; cbn [Nat.eqb orb];
      apply Hd, Hp.
  - destruct (braced_content p Hp) as (Hb & Hc & Hl).
    rewrite Hc. unfold unmarshalResult. cbv zeta. rewrite Hb, Hc.
    destruct Hl as [H|H]; rewrite H; cbn [Nat.eqb orb]; apply Hd, Hp.
  - destruct (urn_content p Hp) as (Hb & Hc & Hl).
    rewrite Hc. unfold unmarshalResult. cbv zeta. rewrite Hb, Hc.
    destruct Hl as [H|H]; rewrite H; cbn [Nat.eqb orb]; apply Hd, Hp.
Qed.

End AcceptedTexts.

(** X6: [UnmarshalText] succeeds exactly on these texts: 32 hex digits, or
    8-4-4-4-12 hex digits with hyphens between the groups, either of them
    as it is, between a pair of braces, or after the prefix [urn:uuid:];
    hex digits are taken in either case, the prefix in lower case only.
    On success the destination holds the sixteen decoded pairs. *)
Theorem UnmarshalText_accepts (u : UUID) (text : list Z) :
  length u = 16%nat ->
  ((exists u', UnmarshalText u text = Ok (u', None)) <-> uuid_text text)
  /\ (uuid_text text ->
      UnmarshalText u text
      = Ok (validPrefix (pairOffsets (content text)) (content text), None)).
Proof.
  intros Hu. rewrite (UnmarshalText_spec u Hu text). split.
  - split.
    + intros [u' [= H]]. apply (unmarshalResult_accepts u Hu).
      rewrite H. reflexivity.
    + intros H. rewrite (accepted_unmarshalResult u Hu text H). eauto.
  - intros H. rewrite (accepted_unmarshalResult u Hu text H). reflexivity.
Qed.

Lemma UnmarshalText_accepts_witness :
  (exists u', UnmarshalText Nil (lit "urn:uuid:6BA7B8109DAD11D180B400C04FD430C8")
              = Ok (u', None))
  <-> uuid_text (lit "urn:uuid:6BA7B8109DAD11D180B400C04FD430C8").
Proof.
  apply (UnmarshalText_accepts Nil). reflexivity.
Defined.

(** ** Upper case *)

Section UpperCase.

Lemma upperc_wrap (c : Z) :
  (chr "a" <=? c) && (c <=? chr "f") = true ->
  Wrap.u8 (c - (chr "a" - chr "A")) = upperc c.
Proof.
  intros H. unfold upperc. rewrite H. unfold Wrap.u8.
  change (chr "a" - chr "A") with 32.
  change (chr "a") with 97 in H. change (chr "f") with 102 in H.
  apply Z.mod_small. lia.
Qed.

Lemma toUpperHex_loop_spec (rest pre : list Z) :
  toUpperHex_loop (length rest) (length pre) (pre ++ rest)
  = pre ++ map upperc rest.
Proof.
  revert pre. induction rest as [|c rest IH]; intros pre; [reflexivity|].
  cbn [length toUpperHex_loop map].
  rewrite list_lookup_middle by reflexivity.
  assert (Hb : (if (chr "a" <=? c) && (c <=? chr "f")
                then <[length pre := Wrap.u8 (c - (chr "a" - chr "A"))]>
                       (pre ++ c :: rest)
                else pre ++ c :: rest)
               = (pre ++ [upperc c]) ++ rest).
  { rewrite <- app_assoc. cbn [app].
    destruct ((chr "a" <=? c) && (c <=? chr "f")) eqn:E.
    - rewrite insert_app_r_alt by lia. rewrite Nat.sub_diag. cbn.
      rewrite upperc_wrap by exact E. reflexivity.
    - unfold upperc. rewrite E. reflexivity. }
  rewrite Hb.
  replace (S (length pre)) with (length (pre ++ [upperc c]))
    by (rewrite length_app; cbn [length]; lia).
  rewrite IH, <- app_assoc. reflexivity.
Qed.

Lemma toUpperHex_map (b : list Z) : toUpperHex b = map upperc b.
Proof. exact (toUpperHex_loop_spec b []). Qed.

Lemma upperc_idem (c : Z) : upperc (upperc c) = upperc c.
Proof.
  unfold upperc.
  change (chr "a") with 97. change (chr "f") with 102.
  destruct ((97 <=? c) && (c <=? 102)) eqn:E; [|rewrite E; reflexivity].
  replace ((97 <=? c - 32) && (c - 32 <=? 102)) with false by lia.
  reflexivity.
Qed.

Lemma upperc_hyphen (c : Z) : (upperc c =? chr "-") = (c =? chr "-").
Proof.
  unfold upperc.
  change (chr "a") with 97. change (chr "f") with 102. change (chr "-") with 45.
  destruct ((97 <=? c) && (c <=? 102)) eqn:E; lia.
Qed.

Lemma hexPair_upper (t : list Z) (x : nat) :
  hexPair (map upperc t) x = hexPair t x.
Proof.
  unfold hexPair. rewrite !list_lookup_fmap.
  destruct (t !! x) as [c1|]; [|reflexivity].
  destruct (t !! (x + 1)%nat) as [c2|]; [|reflexivity].
  cbn [fmap option_fmap option_map]. rewrite !fromHexChar_upperc. reflexivity.
Qed.

Lemma validPrefix_upper (xs : list nat) (t : list Z) :
  validPrefix xs (map upperc t) = validPrefix xs t.
Proof.
  induction xs as [|x xs IH]; cbn [validPrefix]; [reflexivity|].
  rewrite hexPair_upper, IH. reflexivity.
Qed.

Lemma hyphensOk_upper (t : list Z) : hyphensOk (map upperc t) = hyphensOk t.
Proof.
  unfold hyphensOk, hyphenAt. rewrite !list_lookup_fmap.
  destruct (t !! 8%nat), (t !! 13%nat), (t !! 18%nat), (t !! 23%nat);
    cbn [fmap option_fmap option_map]; rewrite ?upperc_hyphen; reflexivity.
Qed.

End UpperCase.

(** X8: [toUpperHex] maps the letters a-f to A-F and leaves every other
    byte and the length alone; doing it twice is doing it once; and
    [decodeHashLike] decodes a text and its upper-case form alike. *)
Theorem toUpperHex_spec (b : list Z) :
  toUpperHex b = map upperc b
  /\ length (toUpperHex b) = length b
  /\ toUpperHex (toUpperHex b) = toUpperHex b
  /\ (forall u : UUID, length u = 16%nat -> (32 <= length b)%nat ->
      decodeHashLike u (toUpperHex b) = decodeHashLike u b).
Proof.
  split; [apply toUpperHex_map|].
  split; [rewrite toUpperHex_map; apply length_map|].
  split.
  - rewrite !toUpperHex_map, map_map. apply map_ext. apply upperc_idem.
  - intros u Hu Hb. rewrite toUpperHex_map.
    rewrite !decodeHashLike_spec by (rewrite ?length_map; assumption).
    cbv zeta. rewrite validPrefix_upper. reflexivity.
Qed.

Lemma toUpperHex_spec_witness :
  decodeHashLike Nil (toUpperHex (lit "6ba7b8109dad11d180b400c04fd430c8"))
  = decodeHashLike Nil (lit "6ba7b8109dad11d180b400c04fd430c8").
Proof.
  apply (toUpperHex_spec (lit "6ba7b8109dad11d180b400c04fd430c8"));
    [reflexivity | cbn; lia].
Defined.

(** ** Formatting *)

Section Formatting.

Lemma Encode_all (u : UUID) :
  length u = 16%nat -> hex.Encode (replicate 32 0) 0 u = Ok (hexdigits u).
Proof. intros H. explode_uuid u H. reflexivity. Qed.

Lemma hexdigits_length (u : UUID) :
  length u = 16%nat -> length (hexdigits u) = 32%nat.
Proof. intros H. explode_uuid u H. reflexivity. Qed.

Lemma quoted_text (u : UUID) :
  length u = 16%nat ->
  (b ← store (replicate 38 0) 0 34;
   tl ← encodeHex (drop 1 b) u;
   b ← store (take 1 b ++ tl) 37 34;
   Ok (f_Write b))
  = Ok (f_Write (34 :: canonical_text u ++ [34])).
Proof. intros H. explode_uuid u H. reflexivity. Qed.

Lemma validPrefix_hexdigits (u : UUID) :
  valid u -> validPrefix hashOffsets (hexdigits u) = u.
Proof.
  intros [Hl Hf]. explode_uuid u Hl.
  rewrite !Forall_cons in Hf.
  destruct Hf as (H0 & H1 & H2 & H3 & H4 & H5 & H6 & H7 & H8 & H9
                  & H10 & H11 & H12 & H13 & H14 & H15 & _).
  cbn [validPrefix hashOffsets].
  repeat (erewrite hexPair_digits; [ | reflexivity | reflexivity | assumption ]).
  reflexivity.
Qed.

(** A text whose pairs decode to [u] is decoded to [u]. *)
Lemma decode_text (dst u : UUID) (t : list Z) :
  length dst = 16%nat -> length u = 16%nat ->
  length t = 32%nat \/ (length t = 36%nat /\ hyphensOk t = true) ->
  validPrefix (pairOffsets t) t = u ->
  UnmarshalText dst t = Ok (u, None).
Proof.
  intros Hdst Hu Ht Hp.
  rewrite (UnmarshalText_spec dst Hdst).
  unfold unmarshalResult, decodeResult. cbv zeta. rewrite Hp, Hu.
  rewrite drop_ge, app_nil_r by (rewrite Hdst; reflexivity).
  destruct Ht as [Ht | [Ht Hh]]; rewrite Ht; [reflexivity|].
  rewrite Hh. reflexivity.
Qed.

Lemma Format_x (u : UUID) (sharp : bool) :
  length u = 16%nat ->
  Format u sharp (chr "x") = Ok (f_Write (hexdigits u))
  /\ Format u sharp (chr "X") = Ok (f_Write (toUpperHex (hexdigits u))).
Proof.
  intros H. unfold Format.
  change ((chr "x" =? chr "v") && sharp) with false.
  change ((chr "X" =? chr "v") && sharp) with false.
  cbv iota. rewrite (Encode_all u H). split; reflexivity.
Qed.

Lemma Format_s (u : UUID) (sharp : bool) :
  length u = 16%nat ->
  Format u sharp (chr "s") = Ok (f_Write (canonical_text u))
  /\ Format u sharp (chr "S") = Ok (f_Write (toUpperHex (canonical_text u)))
  /\ Format u false (chr "v") = Ok (f_Write (canonical_text u))
  /\ Format u sharp (chr "q") = Ok (f_Write (34 :: canonical_text u ++ [34])).
Proof.
  intros H. pose proof (String_canonical u H) as Hs. unfold String in Hs.
  unfold Format, MarshalText.
  change ((chr "s" =? chr "v") && sharp) with false.
  change ((chr "S" =? chr "v") && sharp) with false.
  change (((chr "q") =? chr "v") && sharp) with false.
  cbv iota. rewrite Hs.
  split; [reflexivity|]. split; [reflexivity|]. split; [reflexivity|].
  cbn [Z.eqb Pos.eqb orb chr]. apply quoted_text, H.
Qed.

End Formatting.

(** X9: what [Format] writes for the verbs x, X, s, S and for v without
    the sharp flag is a text that [UnmarshalText] decodes, into any
    destination, to the same UUID. *)
Theorem Format_parses_back (u dst : UUID) (sharp : bool) (c : Z) :
  valid u -> length dst = 16%nat ->
  In c [chr "x"; chr "X"; chr "s"; chr "S"] \/ (c = chr "v" /\ sharp = false) ->
  exists b : list Z,
    Format u sharp c = Ok (f_Write b)
    /\ UnmarshalText dst b = Ok (u, None).
Proof.
  intros Hu Hdst Hc. pose proof Hu as [Hl _].
  destruct (Format_x u sharp Hl) as (Fx & FX).
  destruct (Format_s u sharp Hl) as (Fs & FS & Fv & _).
  assert (Hcan : UnmarshalText dst (canonical_text u) = Ok (u, None))
    by (apply decode_canonical_text; assumption).
  assert (Hhex : UnmarshalText dst (hexdigits u) = Ok (u, None)).
  { apply decode_text; [assumption | assumption | |].
    - left. apply hexdigits_length, Hl.
    - unfold pairOffsets. rewrite (hexdigits_length u Hl).
      apply validPrefix_hexdigits, Hu. }
  assert (HHEX : UnmarshalText dst (toUpperHex (hexdigits u)) = Ok (u, None)).
  { rewrite toUpperHex_map.
    apply decode_text; [assumption | assumption | |].
    - left. rewrite length_map. apply hexdigits_length, Hl.
    - unfold pairOffsets. rewrite length_map, (hexdigits_length u Hl).
      rewrite validPrefix_upper. apply validPrefix_hexdigits, Hu. }
  assert (HCAN : UnmarshalText dst (toUpperHex (canonical_text u)) = Ok (u, None)).
  { rewrite toUpperHex_map.
    apply decode_text; [assumption | assumption | |].
    - right. rewrite length_map, hyphensOk_upper.
      split; [apply canonical_text_length, Hl
             | apply hyphensOk_canonical_text, Hu].
    - unfold pairOffsets. rewrite length_map, (canonical_text_length u Hl).
      rewrite validPrefix_upper. apply validPrefix_canonical_text, Hu. }
  destruct Hc as [Hc | [-> ->]].
  - cbn [In] in Hc.
    destruct Hc as [<- | [<- | [<- | [<- | []]]]]; eauto.
  - eauto.
Qed.

Lemma Format_parses_back_witness :
  exists b : list Z,
    Format (lit "0123456789abcdef") true (chr "X") = Ok (f_Write b)
    /\ UnmarshalText Nil b = Ok (lit "0123456789abcdef", None).
Proof.
  apply (Format_parses_back (lit "0123456789abcdef") Nil true (chr "X")).
  - apply validb_spec. reflexivity.
  - reflexivity.
  - left. cbn. auto.
Defined.

(** X10: [Format] never panics.  With the sharp flag the verb v hands the
    array to [Fprintf]; the verb q writes the canonical text between two
    double quotes, 38 bytes; every verb other than x, X, v, s, S and q is
    handed to [Fprintf] with the verb and the canonical text, and
    [Format] itself writes no bytes for it. *)
Theorem Format_other_verbs (u : UUID) (sharp : bool) (c : Z) :
  length u = 16%nat ->
  Format u true (chr "v") = Ok (Fprintf_GoSyntax u)
  /\ Format u sharp (chr "q") = Ok (f_Write (34 :: canonical_text u ++ [34]))
  /\ length (34 :: canonical_text u ++ [34]) = 38%nat
  /\ (~ In c [chr "x"; chr "X"; chr "v"; chr "s"; chr "S"; (chr "q")] ->
      Format u sharp c = Ok (Fprintf_BadVerb c (canonical_text u)))
  /\ exists out, Format u sharp c = Ok out.
Proof.
  intros Hl.
  pose proof (String_canonical u Hl) as Hs.
  pose proof Hs as Hs'. unfold String in Hs'.
  destruct (Format_s u sharp Hl) as (Fs & FS & Fv & Fq).
  destruct (Format_x u sharp Hl) as (Fx & FX).
  assert (Hbad : ~ In c [chr "x"; chr "X"; chr "v"; chr "s"; chr "S"; (chr "q")] ->
                 Format u sharp c = Ok (Fprintf_BadVerb c (canonical_text u))).
  { intros Hn. cbn [In] in Hn. unfold Format.
    destruct (Z.eqb_spec c (chr "v")); [exfalso; apply Hn; subst c; auto 10|].
    destruct (Z.eqb_spec c (chr "x")); [exfalso; apply Hn; subst c; auto 10|].
    destruct (Z.eqb_spec c (chr "X")); [exfalso; apply Hn; subst c; auto 10|].
    destruct (Z.eqb_spec c (chr "s")); [exfalso; apply Hn; subst c; auto 10|].
    destruct (Z.eqb_spec c (chr "S")); [exfalso; apply Hn; subst c; auto 10|].
    destruct (Z.eqb_spec c (chr "q")); [exfalso; apply Hn; subst c; auto 10|].
    cbn [andb orb]. rewrite Hs. reflexivity. }
  split; [reflexivity|]. split; [exact Fq|].
  split.
  { cbn [length]. rewrite length_app, (canonical_text_length u Hl).
    reflexivity. }
  split; [exact Hbad|].
  destruct (in_dec Z.eq_dec c [chr "x"; chr "X"; chr "v"; chr "s"; chr "S"; (chr "q")])
    as [Hin|Hn]; [|eauto].
  cbn [In] in Hin.
  destruct Hin as [<- | [<- | [<- | [<- | [<- | [<- | []]]]]]]; eauto.
  destruct sharp; eauto.
Qed.

Lemma Format_other_verbs_witness :
  Format (lit "0123456789abcdef") false (chr "p")
  = Ok (Fprintf_BadVerb (chr "p") (canonical_text (lit "0123456789abcdef"))).
Proof.
  apply (Format_other_verbs (lit "0123456789abcdef") false (chr "p"));
    [reflexivity|].
  cbn. intros H. repeat destruct H as [H|H]; try discriminate H. exact H.
Defined.

(** ** From the text to the UUID and back *)

Section Reencode.

Lemma pair_text_hi (c1 c2 : Z) :
  is_hexdig c1 = true -> is_hexdig c2 = true ->
  upperc (hex.digit
            (Z.shiftr (Z.lor (Wrap.u8 (Z.shiftl (hexval c1) 4)) (hexval c2)) 4))
  = upperc c1.
Proof.
  intros H1 H2.
  destruct (hexdig_facts c1 H1) as (R1 & _ & _ & E1).
  destruct (hexdig_facts c2 H2) as (R2 & _).
  destruct (nibbles_byte _ _ R1 R2) as (_ & -> & _). exact E1.
Qed.

Lemma pair_text_lo (c1 c2 : Z) :
  is_hexdig c1 = true -> is_hexdig c2 = true ->
  upperc (hex.digit
            (Z.land (Z.lor (Wrap.u8 (Z.shiftl (hexval c1) 4)) (hexval c2)) 15))
  = upperc c2.
Proof.
  intros H1 H2.
  destruct (hexdig_facts c1 H1) as (R1 & _).
  destruct (hexdig_facts c2 H2) as (R2 & _ & _ & E2).
  destruct (nibbles_byte _ _ R1 R2) as (_ & _ & -> & _). exact E2.
Qed.

Ltac split_andb :=
  repeat match goal with
         | H : _ && _ = true |- _ =>
             let H1 := fresh "D" in
             apply andb_prop in H; destruct H as [H H1]
         end.

Ltac use_digits :=
  repeat match goal with
         | H : is_hexdig ?z = true |- context [is_hexdig ?z] => rewrite H
         end.

Lemma reencode_hashlike (c : list Z) :
  hashlike c = true ->
  map upperc (hexdigits (validPrefix hashOffsets c)) = map upperc c.
Proof.
  unfold hashlike. intros H. apply andb_prop in H as [Hl H].
  apply Nat.eqb_eq in Hl. explode_list c Hl 32.
  cbn [forallb] in H. split_andb.
  cbn [validPrefix hashOffsets]. rewrite !hexPair_spec.
  cbn [lookup list_lookup Nat.add]. use_digits. cbn [andb].
  cbn [hexdigits flat_map app map].
  repeat (f_equal; [first [apply pair_text_hi | apply pair_text_lo];
                    assumption|]).
  f_equal. apply pair_text_lo; assumption.
Qed.


Lemma reencode_canonical (c : list Z) :
  canonical c = true ->
  map upperc (canonical_text (validPrefix canonicalOffsets c)) = map upperc c.
Proof.
  unfold canonical. intros H. apply andb_prop in H as [Hl H].
  apply Nat.eqb_eq in Hl. explode_list c Hl 36.
  cbv -[is_hexdig Z.eqb andb] in H. split_andb.
  repeat match goal with
         | E : (?z =? 45) = true |- _ => apply Z.eqb_eq in E; subst z
         end.
  cbn [validPrefix canonicalOffsets]. rewrite !hexPair_spec.
  cbn [lookup list_lookup Nat.add]. use_digits. cbn [andb].
  cbn [canonical_text sub take drop Nat.sub hexdigits flat_map app map].
  repeat (apply (f_equal2 (@cons Z));
          [first [apply pair_text_hi; assumption
                 | apply pair_text_lo; assumption
                 | reflexivity]|]).
  reflexivity.
Qed.

End Reencode.

(** X11: decoding and formatting give the text back in upper case.  When
    [UnmarshalText] succeeds, the verb S applied to the result writes the
    upper-case form of the 36 characters that were decoded, and the verb X
    the upper-case form of the 32 characters, braces and URN prefix
    stripped. *)
Theorem Format_after_UnmarshalText (dst u : UUID) (text : list Z) (sharp : bool) :
  length dst = 16%nat ->
  UnmarshalText dst text = Ok (u, None) ->
  (length (content text) = 36%nat ->
   Format u sharp (chr "S") = Ok (f_Write (toUpperHex (content text))))
  /\ (length (content text) = 32%nat ->
      Format u sharp (chr "X") = Ok (f_Write (toUpperHex (content text)))).
Proof.
  intros Hdst Hdec.
  rewrite (UnmarshalText_spec dst Hdst text) in Hdec. injection Hdec as Hdec.
  assert (Hut : uuid_text text)
    by (apply (unmarshalResult_accepts dst Hdst); rewrite Hdec; reflexivity).
  rewrite (accepted_unmarshalResult dst Hdst text Hut) in Hdec.
  injection Hdec as Hu.
  assert (Hp : plain (content text) = true).
  { destruct Hut as [Hp | [(p & Hp & ->) | (p & Hp & ->)]].
    - unfold content.
      destruct (plain_length text Hp) as [H|H]; rewrite H; exact Hp.
    - destruct (braced_content p Hp) as (_ & -> & _). exact Hp.
    - destruct (urn_content p Hp) as (_ & -> & _). exact Hp. }
  assert (Hl : length u = 16%nat).
  { destruct (decodeResult_success dst (content text) (plain_length _ Hp))
      as [Hs Hv].
    pose proof (proj2 Hs Hp) as Hn. specialize (Hv Hn).
    unfold decodeResult in Hn.
    destruct ((length (content text) =? 36)%nat && negb (hyphensOk (content text)));
      [discriminate|]. cbn [snd] in Hn.
    destruct (Nat.eqb_spec
                (length (validPrefix (pairOffsets (content text)) (content text)))
                16) as [E|N]; [|discriminate].
    rewrite <- Hu. exact E. }
  destruct (Format_x u sharp Hl) as (_ & FX).
  destruct (Format_s u sharp Hl) as (_ & FS & _).
  unfold plain in Hp. split; intros Hc.
  - rewrite FS, !toUpperHex_map. do 2 f_equal.
    unfold hashlike in Hp. rewrite Hc in Hp. cbn [Nat.eqb andb] in Hp.
    rewrite Bool.orb_false_r in Hp.
    rewrite <- Hu. unfold pairOffsets. rewrite Hc. cbn [Nat.eqb].
    apply reencode_canonical, Hp.
  - rewrite FX, !toUpperHex_map. do 2 f_equal.
    unfold canonical in Hp. rewrite Hc in Hp. cbn [Nat.eqb andb orb] in Hp.
    rewrite <- Hu. unfold pairOffsets. rewrite Hc. cbn [Nat.eqb].
    apply reencode_hashlike, Hp.
Qed.

Lemma Format_after_UnmarshalText_witness :
  Format [107; 167; 184; 16; 157; 173; 17; 209;
          128; 180; 0; 192; 79; 212; 48; 200] false (chr "S")
  = Ok (f_Write (toUpperHex (lit "6ba7b810-9dad-11d1-80b4-00c04fd430c8"))).
Proof.
  apply (Format_after_UnmarshalText Nil _
           (lit "{6ba7b810-9dad-11d1-80b4-00c04fd430c8}") false);
    [reflexivity | vm_compute; reflexivity | reflexivity].
Defined.

(** ** Buffers *)

Section Buffers.

Lemma encodeHex_long (dst u : list Z) :
  length u = 16%nat -> (36 <= length dst)%nat ->
  encodeHex dst u = Ok (canonical_text u ++ drop 36 dst).
Proof.
  intros Hu Hd. explode_uuid u Hu.
  do 36 (destruct dst as [|? dst]; [cbn in Hd; lia|]).
  reflexivity.
Qed.

Lemma encodeHex_short (dst u : list Z) :
  length u = 16%nat -> (length dst < 36)%nat -> encodeHex dst u = Panic.
Proof.
  intros Hu Hd. explode_uuid u Hu.
  do 36 (destruct dst as [|? dst]; [reflexivity|]).
  cbn in Hd. lia.
Qed.

End Buffers.

(** X12: [encodeHex] panics exactly when the destination has fewer than
    36 bytes; otherwise it overwrites the first 36 bytes with the
    canonical text and leaves every later byte as it was.  [Append]
    returns its argument followed by these 36 characters. *)
Theorem encodeHex_buffer (dst u : list Z) :
  length u = 16%nat ->
  ((length dst < 36)%nat -> encodeHex dst u = Panic)
  /\ ((36 <= length dst)%nat ->
      encodeHex dst u = Ok (canonical_text u ++ drop 36 dst))
  /\ Append u dst = Ok (dst ++ canonical_text u)
  /\ length (canonical_text u) = 36%nat.
Proof.
  intros Hu.
  split; [apply encodeHex_short, Hu|].
  split; [apply encodeHex_long, Hu|].
  split; [|apply canonical_text_length, Hu].
  unfold Append. rewrite encodeHex_long by (rewrite ?length_replicate; lia || exact Hu).
  cbn [mbind res_bind drop replicate]. rewrite app_nil_r. reflexivity.
Qed.

Lemma encodeHex_buffer_witness :
  encodeHex (replicate 35 0) (lit "0123456789abcdef") = Panic
  /\ encodeHex (replicate 38 7) (lit "0123456789abcdef")
     = Ok (canonical_text (lit "0123456789abcdef") ++ [7; 7]).
Proof.
  split.
  - apply (encodeHex_buffer (replicate 35 0) (lit "0123456789abcdef"));
      [reflexivity | cbn; lia].
  - apply (encodeHex_buffer (replicate 38 7) (lit "0123456789abcdef"));
      [reflexivity | cbn; lia].
Defined.

(** ** Time stamps *)

Section Ticks.

Lemma to_int64_small (x : Z) : - 2 ^ 63 <= x < 2 ^ 63 -> to_int64 x = x.
Proof.
  intros H. unfold to_int64. rewrite Z.mod_small by lia. lia.
Qed.

Lemma masked_field (b6 b6' b7 : Z) :
  Wrap.is_byte b6 -> Wrap.is_byte b6' -> Wrap.is_byte b7 ->
  Z.land b6' 15 = Z.land b6 15 ->
  Z.land (be [b6'; b7]) 4095 = Z.land (be [b6; b7]) 4095.
Proof.
  unfold Wrap.is_byte, be. cbn [fold_left]. intros H6 H6' H7 E.
  change 15 with (Z.ones 4) in E. change 4095 with (Z.ones 12).
  rewrite !Z.land_ones in * by lia.
  change (2 ^ 4) with 16 in E. change (2 ^ 12) with 4096.
  assert (Hm : forall b, 0 <= b < 256 ->
                 ((0 * 256 + b) * 256 + b7) mod 4096 = b mod 16 * 256 + b7).
  { intros b Hb. symmetry.
    pose proof (Z.div_mod b 16 ltac:(lia)) as Hd.
    pose proof (Z.mod_pos_bound b 16 ltac:(lia)) as Hr.
    apply (Z.mod_unique_pos _ _ (b / 16)); lia. }
  rewrite !Hm by assumption. rewrite E. reflexivity.
Qed.

(** What the two extractors return when the version fits. *)
Lemma Timestamp_values (u : UUID) :
  valid u ->
  (Version u = 1 ->
   TimestampFromV1 u
   = Ok (be (sub u 0 4) + Z.shiftl (be (sub u 4 6)) 32
         + Z.shiftl (Z.land (be (sub u 6 8)) 4095) 48, None))
  /\ (Version u = 6 ->
      TimestampFromV6 u
      = Ok (Z.land (be (sub u 6 8)) 4095 + Z.shiftl (be (sub u 4 6)) 12
            + Z.shiftl (be (sub u 0 4)) 28, None)).
Proof.
  intros Hu.
  destruct (time_fields u Hu) as (E1 & E2 & E3 & R1 & R2 & R3).
  pose proof (mask12 (be (sub u 6 8)) ltac:(lia)) as R4.
  split; intros Hv.
  - unfold TimestampFromV1. rewrite Hv. cbn [Z.eqb Pos.eqb negb].
    rewrite E1, E2, E3. rewrite !Z.shiftl_mul_pow2 by lia.
    unfold Wrap.u64.
    rewrite (Z.mod_small (be (sub u 4 6) * 2 ^ 32)) by lia.
    rewrite (Z.mod_small (Z.land (be (sub u 6 8)) 4095 * 2 ^ 48)) by lia.
    rewrite (Z.mod_small (be (sub u 0 4) + _)) by lia.
    rewrite Z.mod_small by lia. reflexivity.
  - unfold TimestampFromV6. rewrite Hv. cbn [Z.eqb Pos.eqb negb].
    rewrite E1, E2, E3. rewrite !Z.shiftl_mul_pow2 by lia.
    unfold Wrap.u64.
    rewrite (Z.mod_small (be (sub u 4 6) * 2 ^ 12)) by lia.
    rewrite (Z.mod_small (be (sub u 0 4) * 2 ^ 28)) by lia.
    rewrite (Z.mod_small (Z.land (be (sub u 6 8)) 4095 + _)) by lia.
    rewrite Z.mod_small by lia. reflexivity.
Qed.

(** [SetVersion] keeps the three time fields. *)
Lemma SetVersion_fields (u : UUID) (v : Z) :
  valid u -> Wrap.is_byte v ->
  sub (SetVersion u v) 0 4 = sub u 0 4
  /\ sub (SetVersion u v) 4 6 = sub u 4 6
  /\ Z.land (be (sub (SetVersion u v) 6 8)) 4095
     = Z.land (be (sub u 6 8)) 4095.
Proof.
  intros Hu Hv. pose proof (get_is_byte u 6 Hu) as H6.
  destruct (version_byte_facts (get u 6) v H6 Hv) as (Hb & _ & Hn).
  rewrite SetVersion_unfold. revert Hb Hn H6.
  destruct Hu as [Hl Hf]. explode_uuid u Hl.
  rewrite !Forall_cons in Hf.
  destruct Hf as (_ & _ & _ & _ & _ & _ & _ & H7 & _).
  cbn [get lookup list_lookup default]. intros Hb Hn H6.
  split; [reflexivity|]. split; [reflexivity|].
  apply masked_field; assumption.
Qed.

End Ticks.

(** X13: [SetVersion] does not disturb the time stamp.  After
    [SetVersion 1] the version-1 extractor succeeds on every UUID and
    returns the 60 bits of the first eight bytes of the original value;
    likewise the version-6 extractor after [SetVersion 6]. *)
Theorem Timestamp_after_SetVersion (u : UUID) :
  valid u ->
  TimestampFromV1 (SetVersion u 1)
  = Ok (be (sub u 0 4) + Z.shiftl (be (sub u 4 6)) 32
        + Z.shiftl (Z.land (be (sub u 6 8)) 4095) 48, None)
  /\ TimestampFromV6 (SetVersion u 6)
     = Ok (Z.land (be (sub u 6 8)) 4095 + Z.shiftl (be (sub u 4 6)) 12
           + Z.shiftl (be (sub u 0 4)) 28, None).
Proof.
  intros Hu.
  assert (B1 : Wrap.is_byte 1) by (unfold Wrap.is_byte; lia).
  assert (B6 : Wrap.is_byte 6) by (unfold Wrap.is_byte; lia).
  split.
  - destruct (SetVersion_fields u 1 Hu B1) as (<- & <- & <-).
    apply Timestamp_values.
    + apply SetVersion_valid; assumption.
    + rewrite Version_SetVersion by assumption. reflexivity.
  - destruct (SetVersion_fields u 6 Hu B6) as (<- & <- & <-).
    apply Timestamp_values.
    + apply SetVersion_valid; assumption.
    + rewrite Version_SetVersion by assumption. reflexivity.
Qed.

Lemma Timestamp_after_SetVersion_witness :
  TimestampFromV1 (SetVersion (lit "0123456789abcdef") 1)
  = Ok (be (lit "0123") + Z.shiftl (be (lit "45")) 32
        + Z.shiftl (Z.land (be (lit "67")) 4095) 48, None).
Proof.
  apply (Timestamp_after_SetVersion (lit "0123456789abcdef")).
  apply validb_spec. reflexivity.
Defined.

(** X14: [Timestamp.Time] never fails and loses nothing: for every
    64-bit count of ticks it calls [time.Unix] with the whole seconds
    since the Unix epoch and with nanoseconds that are a multiple of 100
    below one second, and the count is these seconds, moved back by the
    epoch offset, times ten million plus the nanoseconds over 100. *)
Theorem Time_spec (epochStart t : Z) :
  0 <= epochStart < 2 ^ 63 -> 0 <= t < 2 ^ 64 ->
  let sec := t / 10000000 - epochStart / 10000000 in
  let nsec := 100 * (t mod 10000000) in
  Time epochStart t = (time_Unix sec nsec, None)
  /\ 0 <= nsec < 1000000000
  /\ (sec + epochStart / 10000000) * 10000000 + nsec / 100 = t.
Proof.
  intros He Ht sec nsec. unfold Time, _100nsPerSecond, Wrap.u64.
  rewrite Z.quot_div_nonneg by lia.
  assert (Hn : 0 <= nsec < 1000000000)
    by (unfold nsec; Z.div_mod_to_equations; lia).
  assert (Hs : 0 <= t / 10000000 < 2 ^ 63)
    by (Z.div_mod_to_equations; lia).
  assert (Hk : 0 <= epochStart / 10000000 < 2 ^ 63)
    by (Z.div_mod_to_equations; lia).
  fold nsec.
  rewrite (Z.mod_small nsec) by lia.
  rewrite (to_int64_small (t / 10000000)) by lia.
  rewrite (to_int64_small nsec) by lia.
  rewrite to_int64_small by lia.
  split; [reflexivity|]. split; [exact Hn|].
  unfold sec, nsec. Z.div_mod_to_equations. lia.
Qed.

Lemma Time_spec_witness :
  Time 122192928000000000 131059232331511824
  = (time_Unix 886630433 151182400, None).
Proof.
  destruct (Time_spec 122192928000000000 131059232331511824) as [H _];
    [lia | lia | exact H].
Defined.

(** ** Failures of the text decoder, by the defect of the input *)

Section Failures.

Lemma validPrefix_lookup (xs : list nat) (t : list Z) (i : nat) (v : Z) :
  validPrefix xs t !! i = Some v ->
  exists x, xs !! i = Some x /\ hexPair t x = Some v.
Proof.
  revert i. induction xs as [|x xs IH]; intros i; cbn [validPrefix];
    [discriminate|].
  destruct (hexPair t x) as [w|] eqn:E; [|discriminate].
  destruct i as [|i].
  - intros [= <-]. exists x. split; [reflexivity | exact E].
  - intros H. destruct (IH i H) as (y & Hy & Hv). exists y. auto.
Qed.

Lemma validPrefix_stop (xs : list nat) (t : list Z) :
  (length (validPrefix xs t) < length xs)%nat ->
  exists x, xs !! length (validPrefix xs t) = Some x /\ hexPair t x = None.
Proof.
  induction xs as [|x xs IH]; cbn [validPrefix length]; [lia|].
  destruct (hexPair t x) as [w|] eqn:E; cbn [length].
  - intros H. destruct (IH ltac:(lia)) as (y & Hy & Hn). exists y. auto.
  - intros _. exists x. auto.
Qed.

Variable u : UUID.
Hypothesis u_len : length u = 16%nat.

Lemma framed_result (text : list Z) :
  framed text = true ->
  unmarshalResult u text = decodeResult u (content text)
  /\ (length (content text) = 32%nat \/ length (content text) = 36%nat).
Proof.
  unfold framed. cbv zeta. intros Hf.
  destruct ((length text =? 32) || (length text =? 36))%nat eqn:E1.
  { clear Hf. unfold unmarshalResult, content. cbv zeta.
    destruct (either_length _ _ _ E1) as [H|H]; rewrite H;
      cbn [Nat.eqb orb]; rewrite ?H; auto. }
  destruct ((length text =? 34) || (length text =? 38))%nat eqn:E2.
  { cbn [orb andb] in Hf.
    assert (Hb : bracesOk text = true).
    { destruct (bracesOk text); [reflexivity|]. cbn [orb] in Hf.
      apply andb_prop in Hf as [Hf _].
      destruct (either_length _ _ _ E2), (either_length _ _ _ Hf); lia. }
    unfold unmarshalResult, content. cbv zeta. rewrite Hb.
    destruct (either_length _ _ _ E2) as [H|H]; rewrite H;
      cbn [Nat.eqb orb]; (split; [reflexivity|]);
      rewrite length_take, length_drop, H; cbn; auto. }
  cbn [orb andb] in Hf. apply andb_prop in Hf as [E3 Hb].
  unfold unmarshalResult, content. cbv zeta. rewrite Hb.
  destruct (either_length _ _ _ E3) as [H|H]; rewrite H;
    cbn [Nat.eqb orb]; (split; [reflexivity|]);
    rewrite length_drop, H; cbn; auto.
Qed.

Lemma decodeResult_cases (c : list Z) :
  let p := validPrefix (pairOffsets c) c in
  (length c = 36%nat -> hyphensOk c = false ->
   decodeResult u c = (u, Some (formatError c)))
  /\ ((length c = 36%nat -> hyphensOk c = true) ->
      forallb (pairOk c) (pairOffsets c) = false ->
      (length p < 16)%nat
      /\ decodeResult u c = (p ++ drop (length p) u, Some errInvalidFormat))
  /\ ((length c = 36%nat -> hyphensOk c = true) ->
      forallb (pairOk c) (pairOffsets c) = true ->
      length p = 16%nat /\ decodeResult u c = (p, None)).
Proof.
  intros p.
  pose proof (validPrefix_length (pairOffsets c) c) as Hle.
  pose proof (validPrefix_full (pairOffsets c) c) as Hfull.
  rewrite pairOffsets_length in Hle, Hfull. fold p in Hle, Hfull.
  assert (Hgood : (length c = 36%nat -> hyphensOk c = true) ->
                  (length c =? 36)%nat && negb (hyphensOk c) = false).
  { intros H. destruct (Nat.eqb_spec (length c) 36) as [E|N]; [|reflexivity].
    rewrite (H E). reflexivity. }
  unfold decodeResult. fold p. split; [|split].
  - intros Hc Hh. rewrite Hc, Hh. reflexivity.
  - intros Hh Hp. rewrite (Hgood Hh), Hfull, Hp. split; [|reflexivity].
    rewrite Hp in Hfull. apply Nat.eqb_neq in Hfull. lia.
  - intros Hh Hp. rewrite (Hgood Hh), Hfull, Hp.
    rewrite Hp in Hfull. apply Nat.eqb_eq in Hfull. split; [exact Hfull|].
    rewrite Hfull, drop_ge, app_nil_r by (rewrite u_len; reflexivity).
    reflexivity.
Qed.

End Failures.

(** C1, as the code has it.  [UnmarshalText] returns on every input, and
    what it reports and leaves in the destination [u] follows from the
    defect of the input:
    - a length other than 32, 36, 34, 38, 41 and 45: the length error,
      [u] untouched;
    - length 34 or 38 without the two braces: the format error on the
      text, [u] untouched;
    - length 41 or 45 without the prefix [urn:uuid:]: the format error on
      the first nine characters, [u] untouched;
    - 36 characters left after stripping, with a hyphen missing at 8, 13,
      18 or 23: the format error on these characters, [u] untouched;
    - otherwise, a pair that is not two hex digits: [errInvalidFormat],
      and [u] holds the bytes of the pairs before the first such pair,
      fewer than 16, followed by its old bytes from that index on;
    - otherwise no error, and [u] holds the sixteen decoded bytes.
    On every failure the error is one of these three kinds, and [u] is
    untouched unless the error is [errInvalidFormat]. *)
Theorem UnmarshalText_failure (u : UUID) (text : list Z) :
  length u = 16%nat ->
  let n := length text in
  let c := content text in
  let p := validPrefix (pairOffsets c) c in
  (~ In n [32; 36; 34; 38; 41; 45]%nat ->
   UnmarshalText u text = Ok (u, Some (lengthError text)))
  /\ (n = 34%nat \/ n = 38%nat -> bracesOk text = false ->
      UnmarshalText u text = Ok (u, Some (formatError text)))
  /\ (n = 41%nat \/ n = 45%nat -> take 9 text ≠ lit "urn:uuid:" ->
      UnmarshalText u text = Ok (u, Some (formatError (take 9 text))))
  /\ (framed text = true -> length c = 36%nat -> hyphensOk c = false ->
      UnmarshalText u text = Ok (u, Some (formatError c)))
  /\ (framed text = true -> (length c = 36%nat -> hyphensOk c = true) ->
      forallb (pairOk c) (pairOffsets c) = false ->
      UnmarshalText u text
      = Ok (p ++ drop (length p) u, Some errInvalidFormat)
      /\ (length p < 16)%nat
      /\ (forall (i : nat) (v : Z), p !! i = Some v ->
          exists x, pairOffsets c !! i = Some x /\ hexPair c x = Some v)
      /\ (exists x, pairOffsets c !! length p = Some x
                    /\ hexPair c x = None /\ pairOk c x = false))
  /\ (framed text = true -> (length c = 36%nat -> hyphensOk c = true) ->
      forallb (pairOk c) (pairOffsets c) = true ->
      UnmarshalText u text = Ok (p, None))
  /\ (exists (u' : UUID) (r : option error),
        UnmarshalText u text = Ok (u', r)
        /\ forall e : error, r = Some e ->
             (e = lengthError text \/ (exists frag, e = formatError frag)
              \/ e = errInvalidFormat)
             /\ (e ≠ errInvalidFormat -> u' = u)
             /\ (e = errInvalidFormat ->
                 (length p < 16)%nat /\ u' = p ++ drop (length p) u)).
Proof.
  intros Hu n c p.
  rewrite (UnmarshalText_spec u Hu text).
  split; [|split; [|split; [|split; [|split; [|split]]]]].
  - intros Hn. cbn [In] in Hn. unfold unmarshalResult. cbv zeta. fold n.
    destruct (Nat.eqb_spec n 32) as [E|_]; [exfalso; apply Hn; rewrite E; auto 10|].
    destruct (Nat.eqb_spec n 36) as [E|_]; [exfalso; apply Hn; rewrite E; auto 10|].
    destruct (Nat.eqb_spec n 34) as [E|_]; [exfalso; apply Hn; rewrite E; auto 10|].
    destruct (Nat.eqb_spec n 38) as [E|_]; [exfalso; apply Hn; rewrite E; auto 10|].
    destruct (Nat.eqb_spec n 41) as [E|_]; [exfalso; apply Hn; rewrite E; auto 10|].
    destruct (Nat.eqb_spec n 45) as [E|_]; [exfalso; apply Hn; rewrite E; auto 10|].
    reflexivity.
  - intros Hn Hb. unfold unmarshalResult. cbv zeta. fold n. rewrite Hb.
    destruct Hn as [-> | ->]; reflexivity.
  - intros Hn Hp. unfold unmarshalResult, urnOk. cbv zeta. fold n.
    rewrite bool_decide_eq_false_2 by exact Hp.
    destruct Hn as [-> | ->]; reflexivity.
  - intros Hf Hc Hh. destruct (framed_result u Hu text Hf) as [-> _].
    f_equal. by apply (decodeResult_cases u Hu (content text)).
  - intros Hf Hh Hp. destruct (framed_result u Hu text Hf) as [-> _].
    destruct (decodeResult_cases u Hu (content text)) as (_ & H5 & _).
    destruct (H5 Hh Hp) as [Hlt ->].
    split; [reflexivity|]. split; [exact Hlt|].
    split; [apply validPrefix_lookup|].
    destruct (validPrefix_stop (pairOffsets c) c) as (x & Hx & Hnone).
    { rewrite pairOffsets_length. exact Hlt. }
    exists x. split; [exact Hx|]. split; [exact Hnone|].
    rewrite hexPair_pairOk, Hnone. reflexivity.
  - intros Hf Hh Hp. destruct (framed_result u Hu text Hf) as [-> _].
    destruct (decodeResult_cases u Hu (content text)) as (_ & _ & H6).
    destruct (H6 Hh Hp) as [_ ->]. reflexivity.
  - destruct (failure_by_error u text Hu) as (u' & r & Hr & He).
    rewrite (UnmarshalText_spec u Hu text) in Hr.
    exists u', r. split; [exact Hr | exact He].
Qed.

Lemma UnmarshalText_failure_witness :
  UnmarshalText Nil (lit "6ba7b81-09dad-11d1-80b4-00c04fd430c8")
  = Ok (Nil, Some (formatError (lit "6ba7b81-09dad-11d1-80b4-00c04fd430c8")))
  /\ UnmarshalText Nil (lit "6ba7b810-9dad-11d1-80b4-00c04fd430cg")
     = Ok ([107; 167; 184; 16; 157; 173; 17; 209;
            128; 180; 0; 192; 79; 212; 48; 0], Some errInvalidFormat)
  /\ UnmarshalText Nil (lit "[6ba7b810-9dad-11d1-80b4-00c04fd430c8}")
     = Ok (Nil, Some (formatError (lit "[6ba7b810-9dad-11d1-80b4-00c04fd430c8}")))
  /\ UnmarshalText Nil (lit "6ba7b810-9dad-11d1-80b4-00c04fd430c")
     = Ok (Nil, Some (lengthError (lit "6ba7b810-9dad-11d1-80b4-00c04fd430c"))).
Proof.
  split; [|split; [|split]].
  - apply (UnmarshalText_failure Nil
             (lit "6ba7b81-09dad-11d1-80b4-00c04fd430c8") eq_refl);
      reflexivity.
  - apply (UnmarshalText_failure Nil
             (lit "6ba7b810-9dad-11d1-80b4-00c04fd430cg") eq_refl);
      [reflexivity | intros _; reflexivity | reflexivity].
  - apply (UnmarshalText_failure Nil
             (lit "[6ba7b810-9dad-11d1-80b4-00c04fd430c8}") eq_refl);
      [right|]; reflexivity.
  - apply (UnmarshalText_failure Nil
             (lit "6ba7b810-9dad-11d1-80b4-00c04fd430c") eq_refl).
    cbn. intros H. repeat destruct H as [H|H]; try discriminate H. exact H.
Defined.
